(** * Nurse management: the REST handlers, the SQLite table behind them and
      the client-side sort, filter and age derivation.

    Embedded sources:
    - [src/backend/server.js]   -> [Module Backend]
    - [src/server.js]           -> [Module Server]
    - [src/frontend/src/App.jsx] -> [Module App] (sort, filter, form fields)
      and [Module AppClient] (the list state, the submit, the CSV export)
    - [src/unnamed/part_000] (the vanilla client, [public/app.js] in the
      README's layout) -> [Module PublicApp] (sort, derived age) and
      [Module PublicAppClient] (the list state, the form)
    - the routes of the two servers as requests -> [Module Api]

    JavaScript values, [better-sqlite3] and the [nurses] table are modelled in
    [Module JS] and [Module Sqlite]; both servers run the same schema. *)

From Stdlib Require Import ZArith String Ascii List Bool Lia.
From Stdlib Require Import Sorting.Sorted Sorting.Permutation.
From stdpp Require Import base decidable option list gmap strings pretty sorting.

Local Open Scope string_scope.
Local Open Scope Z_scope.

(* ===================================================================== *)
(** ** JavaScript values and the built-ins the sources call               *)
(* ===================================================================== *)

Module JS.

(** The values a JSON request field can take.  Numbers are the
    integer-valued ones (ages); [JUndefined] is an absent key. *)
Inductive jsval :=
| JUndefined
| JNull
| JBool (b : bool)
| JNum (n : Z)
| JStr (s : string).

(** [!v] *)
Definition not (v : jsval) : bool :=
  match v with
  | JUndefined | JNull => true
  | JBool b => negb b
  | JNum n => n =? 0
  | JStr s => bool_decide (s = "")
  end.

(** [v === undefined] *)
Definition is_undefined (v : jsval) : bool :=
  match v with JUndefined => true | _ => false end.

(** A text field of the request body: absent ([None]) or a JSON string.
    [!s] holds for the absent key and for the empty string. *)
Definition not_text (s : option string) : bool :=
  match s with
  | None => true
  | Some s => bool_decide (s = "")
  end.

(** White space skipped by [parseInt] (TAB, LF, VT, FF, CR, SP, NBSP). *)
Definition is_white_space (c : ascii) : bool :=
  match N_of_ascii c with
  | 9 | 10 | 11 | 12 | 13 | 32 | 160 => true
  | _ => false
  end%N.

Fixpoint trim_start (s : string) : string :=
  match s with
  | String c s' => if is_white_space c then trim_start s' else s
  | EmptyString => s
  end.

(** Value of a digit character in radix up to 36. *)
Definition digit_value (c : ascii) : option Z :=
  let n := Z.of_N (N_of_ascii c) in
  if (48 <=? n) && (n <=? 57) then Some (n - 48)
  else if (97 <=? n) && (n <=? 122) then Some (n - 87)
  else if (65 <=? n) && (n <=? 90) then Some (n - 55)
  else None.

(** The longest prefix of digits of the radix; [None] when there is none
    (the caller's [NaN]). *)
Fixpoint parse_digits (radix : Z) (s : string) (acc : option Z) : option Z :=
  match s with
  | String c s' =>
      match digit_value c with
      | Some d =>
          if d <? radix
          then parse_digits radix s' (Some (radix * default 0 acc + d))
          else acc
      | None => acc
      end
  | EmptyString => acc
  end.

(** [parseInt(s)] on a string: leading white space, a sign, an optional
    [0x]/[0X] prefix, then digits.  [None] is [NaN]. *)
Definition parseInt_string (s : string) : option Z :=
  let s1 := trim_start s in
  let '(sign, s2) :=
    match s1 with
    | String "-" r => (-1, r)
    | String "+" r => (1, r)
    | _ => (1, s1)
    end in
  let '(radix, s3) :=
    match s2 with
    | String "0" (String "x" r) | String "0" (String "X" r) => (16, r)
    | _ => (10, s2)
    end in
  Z.mul sign <$> parse_digits radix s3 None.

(** [parseInt(v)]: the argument is converted to a string first.  An integer
    number prints as its decimal digits (below 10^21, where no exponent is
    printed), which read back as the number; [undefined], [null] and
    booleans print as words that hold no digit. *)
Definition parseInt (v : jsval) : option Z :=
  match v with
  | JNum n => Some n
  | JStr s => parseInt_string s
  | JUndefined => parseInt_string "undefined"
  | JNull => parseInt_string "null"
  | JBool true => parseInt_string "true"
  | JBool false => parseInt_string "false"
  end.

(** [n.toString()] for an integer. *)
Definition toString (n : Z) : string := pretty n.

(** [s.toLowerCase()], on the ASCII letters. *)
Definition lower_char (c : ascii) : ascii :=
  let n := N_of_ascii c in
  if ((65 <=? n) && (n <=? 90))%N then ascii_of_N (n + 32) else c.

Fixpoint toLowerCase (s : string) : string :=
  match s with
  | String c s' => String (lower_char c) (toLowerCase s')
  | EmptyString => EmptyString
  end.

(** [s.includes(sub)] *)
Fixpoint includes (s sub : string) : bool :=
  String.prefix sub s ||
  match s with
  | String _ s' => includes s' sub
  | EmptyString => false
  end.

(** The operands of [<] and [>] in the sort comparators: numbers (with
    [NaN] as [None]) or strings.  Dates compare through their time value. *)
Inductive operand :=
| Num (x : option Z)
| Str (s : string).

#[global] Instance operand_eq_dec : EqDecision operand.
Proof. solve_decision. Defined.

(** [a < b]: numbers by value, strings by code unit; every comparison with
    [NaN] is false. *)
Definition lt (a b : operand) : bool :=
  match a, b with
  | Num (Some x), Num (Some y) => x <? y
  | Str s, Str t => String.ltb s t
  | _, _ => false
  end.

(** [a > b] *)
Definition gt (a b : operand) : bool := lt b a.

Section ArraySort.
Context {A : Type} (comparefn : A -> A -> Z).

(** [Array.prototype.sort(comparefn)].  The sort is stable (ECMAScript
    2019), and for a comparator that is a consistent order the result is
    determined: it is the one computed here, where an element moves
    behind those that must precede it and stays before its ties. *)
Fixpoint sort_insert (x : A) (l : list A) : list A :=
  match l with
  | [] => [x]
  | y :: l' =>
      if comparefn x y <=? 0 then x :: l else y :: sort_insert x l'
  end.

Fixpoint sort (l : list A) : list A :=
  match l with
  | [] => []
  | x :: l' => sort_insert x (sort l')
  end.
End ArraySort.

End JS.

(* ===================================================================== *)
(** ** The nurse record and the [nurses] table                            *)
(* ===================================================================== *)

(** A row as the API returns it and as the clients hold it. *)
Record nurse := {
  id : Z;
  name : string;
  license_number : string;
  dob : string;
  age : Z;
  created_at : string;
  updated_at : string;
}.

Module Sqlite.

(** The columns of a row other than its rowid, which is the key of the
    table: [id INTEGER PRIMARY KEY AUTOINCREMENT]. *)
Record row := {
  name : string;
  license_number : string;
  dob : string;
  age : Z;
  created_at : string;
  updated_at : string;
}.

(** The database file: the [nurses] table and the [sqlite_sequence] entry
    that AUTOINCREMENT keeps for it (the largest rowid ever assigned). *)
Record db := {
  nurses : gmap Z row;
  sqlite_sequence : Z;
}.

Definition to_nurse (p : Z * row) : nurse :=
  Build_nurse p.1 (name p.2) (license_number p.2) (dob p.2) (age p.2)
              (created_at p.2) (updated_at p.2).

(** [SqliteError]: the messages the handlers inspect. *)
Definition SqliteError := string.

Definition not_null (column : string) : SqliteError :=
  "NOT NULL constraint failed: nurses." +:+ column.

Definition unique_failed : SqliteError :=
  "UNIQUE constraint failed: nurses.license_number".

(** Some row other than [except] holds the license number. *)
Definition license_taken (t : gmap Z row) (lic : string) (except : option Z) : bool :=
  existsb
    (fun p : Z * row =>
       bool_decide (license_number p.2 = lic) &&
       negb (bool_decide (Some p.1 = except)))
    (map_to_list t).

Definition max_rowid (t : gmap Z row) : Z :=
  map_fold (fun i _ m => Z.max i m) 0 t.

(** Bound parameters: [undefined]/[null] and [NaN] are bound as NULL
    ([None]).  The NOT NULL constraints are checked in column order, before
    the UNIQUE index. *)
Definition check_not_null (name license_number dob : option string) (age : option Z)
  : SqliteError + (string * string * string * Z) :=
  match name, license_number, dob, age with
  | None, _, _, _ => inl (not_null "name")
  | _, None, _, _ => inl (not_null "license_number")
  | _, _, None, _ => inl (not_null "dob")
  | _, _, _, None => inl (not_null "age")
  | Some n, Some l, Some d, Some a => inr (n, l, d, a)
  end.

(** [INSERT INTO nurses (name, license_number, dob, age) VALUES (?, ?, ?, ?)]
    at time [now]; the result is the new state and [lastInsertRowid]. *)
Definition insert (d : db) (now : string)
    (name license_number dob : option string) (age : option Z)
  : SqliteError + (db * Z) :=
  match check_not_null name license_number dob age with
  | inl e => inl e
  | inr (n, l, b, a) =>
      if license_taken (nurses d) l None then inl unique_failed
      else
        let rowid := Z.max (sqlite_sequence d) (max_rowid (nurses d)) + 1 in
        let r := {| name := n; license_number := l; dob := b; age := a;
                    created_at := now; updated_at := now |} in
        inr ({| nurses := <[rowid := r]> (nurses d);
                sqlite_sequence := rowid |}, rowid)
  end.

(** [UPDATE nurses SET name = ?, license_number = ?, dob = ?, age = ?,
    updated_at = CURRENT_TIMESTAMP WHERE id = ?] *)
Definition update (d : db) (now : string)
    (name license_number dob : option string) (age : option Z) (id : Z)
  : SqliteError + db :=
  match nurses d !! id with
  | None => inr d
  | Some old =>
      match check_not_null name license_number dob age with
      | inl e => inl e
      | inr (n, l, b, a) =>
          if license_taken (nurses d) l (Some id) then inl unique_failed
          else
            let r := {| name := n; license_number := l; dob := b; age := a;
                        created_at := created_at old; updated_at := now |} in
            inr {| nurses := <[id := r]> (nurses d);
                   sqlite_sequence := sqlite_sequence d |}
      end
  end.

(** [DELETE FROM nurses WHERE id = ?] *)
Definition delete (d : db) (id : Z) : db :=
  {| nurses := base.delete id (nurses d);
     sqlite_sequence := sqlite_sequence d |}.

(** [SELECT * FROM nurses WHERE id = ?] with [stmt.get].  [id] is the
    integer the bound text of [req.params.id] denotes for the INTEGER
    column. *)
Definition get (d : db) (id : Z) : option nurse :=
  (fun r => to_nurse (id, r)) <$> nurses d !! id.

(** The order of [ORDER BY id DESC]. *)
Definition id_desc (a b : nurse) : Prop := id b <= id a.

#[global] Instance id_desc_dec a b : Decision (id_desc a b).
Proof. unfold id_desc. apply _. Defined.

(** [SELECT * FROM nurses ORDER BY id DESC] with [stmt.all]. *)
Definition all_desc (d : db) : list nurse :=
  merge_sort id_desc (to_nurse <$> map_to_list (nurses d)).

(** [SELECT COUNT( * ) as count FROM nurses] *)
Definition count (d : db) : nat := size (nurses d).

End Sqlite.

(* ===================================================================== *)
(** ** Requests and responses                                             *)
(* ===================================================================== *)

Module Request.
(** [req.body] after [express.json()]: the three text fields are a JSON
    string or absent ([None], which also stands for [null]), [age] is any
    scalar (the React client posts a string, the vanilla client a
    number). *)
Record body := {
  name : option string;
  license_number : option string;
  dob : option string;
  age : JS.jsval;
}.
End Request.

(** What [res.json] is given as the record or record set. *)
Inductive payload :=
| Row (n : option nurse)
| Rows (l : list nurse).

(** [res.status(status).json(...)]: the keys either server may set. *)
Record response := {
  status : Z;
  success : option bool;
  message : option string;
  error : option string;
  data : option payload;
}.

(** The catch blocks' test [error.message.includes('UNIQUE constraint failed')]. *)
Definition is_unique_violation (e : Sqlite.SqliteError) : bool :=
  JS.includes e "UNIQUE constraint failed".

(* ===================================================================== *)
(** ** src/backend/server.js                                              *)
(* ===================================================================== *)

Module Backend.
Import Request.

Definition json_error (code : Z) (msg : string) : response :=
  {| status := code; success := None; message := None;
     error := Some msg; data := None |}.

Definition json_data (code : Z) (p : payload) : response :=
  {| status := code; success := None; message := None;
     error := None; data := Some p |}.

Definition json_message (code : Z) (msg : string) : response :=
  {| status := code; success := None; message := Some msg;
     error := None; data := None |}.

(** [!name || !license_number || !dob || age === undefined] *)
Definition missing_field (b : body) : bool :=
  JS.not_text (name b) || JS.not_text (license_number b) ||
  JS.not_text (dob b) || JS.is_undefined (age b).

(** [app.get('/api/nurses')] *)
Definition get_nurses (d : Sqlite.db) : Sqlite.db * response :=
  (d, json_data 200 (Rows (Sqlite.all_desc d))).

(** [app.get('/api/nurses/:id')] *)
Definition get_nurse (d : Sqlite.db) (id : Z) : Sqlite.db * response :=
  match Sqlite.get d id with
  | None => (d, json_error 404 "Nurse not found")
  | Some n => (d, json_data 200 (Row (Some n)))
  end.

(** [app.post('/api/nurses')] *)
Definition post_nurses (d : Sqlite.db) (now : string) (b : body)
  : Sqlite.db * response :=
  if missing_field b then (d, json_error 400 "All fields are required")
  else
    match Sqlite.insert d now (name b) (license_number b) (dob b)
                        (JS.parseInt (age b)) with
    | inr (d', lastInsertRowid) =>
        (d', json_data 201 (Row (Sqlite.get d' lastInsertRowid)))
    | inl e =>
        if is_unique_violation e
        then (d, json_error 400 "License number already exists")
        else (d, json_error 500 "Failed to create nurse")
    end.

(** [app.put('/api/nurses/:id')] *)
Definition put_nurse (d : Sqlite.db) (now : string) (id : Z) (b : body)
  : Sqlite.db * response :=
  if missing_field b then (d, json_error 400 "All fields are required")
  else
    match Sqlite.get d id with
    | None => (d, json_error 404 "Nurse not found")
    | Some existingNurse =>
        match Sqlite.update d now (name b) (license_number b) (dob b)
                            (JS.parseInt (age b)) id with
        | inr d' => (d', json_data 200 (Row (Sqlite.get d' id)))
        | inl e =>
            if is_unique_violation e
            then (d, json_error 400 "License number already exists")
            else (d, json_error 500 "Failed to update nurse")
        end
    end.

(** [app.delete('/api/nurses/:id')] *)
Definition delete_nurse (d : Sqlite.db) (id : Z) : Sqlite.db * response :=
  match Sqlite.get d id with
  | None => (d, json_error 404 "Nurse not found")
  | Some existingNurse =>
      (Sqlite.delete d id, json_message 200 "Nurse deleted successfully")
  end.

End Backend.

(* ===================================================================== *)
(** ** src/server.js                                                      *)
(* ===================================================================== *)

Module Server.
Import Request.

Definition json_error (code : Z) (msg : string) : response :=
  {| status := code; success := Some false; message := None;
     error := Some msg; data := None |}.

Definition json_data (code : Z) (msg : option string) (p : payload) : response :=
  {| status := code; success := Some true; message := msg;
     error := None; data := Some p |}.

Definition json_message (code : Z) (msg : string) : response :=
  {| status := code; success := Some true; message := Some msg;
     error := None; data := None |}.

Definition all_fields_required : string :=
  "All fields are required: name, license_number, dob, age".

(** [!name || !license_number || !dob || !age] *)
Definition missing_field (b : body) : bool :=
  JS.not_text (name b) || JS.not_text (license_number b) ||
  JS.not_text (dob b) || JS.not (age b).

Definition sampleNurses : list (string * string * string * Z) :=
  [ ("Sarah Johnson", "RN-2024-001", "1985-03-15", 39);
    ("Michael Chen", "RN-2024-002", "1990-07-22", 34);
    ("Emily Williams", "RN-2024-003", "1988-11-08", 36);
    ("David Martinez", "RN-2024-004", "1992-05-30", 32);
    ("Jessica Brown", "RN-2024-005", "1987-09-12", 37) ].

(** Start-up: the sample rows go into an empty table. *)
Definition seed (d : Sqlite.db) (now : string) : Sqlite.db :=
  if bool_decide (Sqlite.count d = 0%nat) then
    fold_left
      (fun d '(n, l, b, a) =>
         match Sqlite.insert d now (Some n) (Some l) (Some b) (Some a) with
         | inr (d', _) => d'
         | inl _ => d
         end)
      sampleNurses d
  else d.

(** [app.get('/api/nurses')] *)
Definition get_nurses (d : Sqlite.db) : Sqlite.db * response :=
  (d, json_data 200 None (Rows (Sqlite.all_desc d))).

(** [app.get('/api/nurses/:id')] *)
Definition get_nurse (d : Sqlite.db) (id : Z) : Sqlite.db * response :=
  match Sqlite.get d id with
  | None => (d, json_error 404 "Nurse not found")
  | Some n => (d, json_data 200 None (Row (Some n)))
  end.

(** [app.post('/api/nurses')] *)
Definition post_nurses (d : Sqlite.db) (now : string) (b : body)
  : Sqlite.db * response :=
  if missing_field b then (d, json_error 400 all_fields_required)
  else
    match Sqlite.insert d now (name b) (license_number b) (dob b)
                        (JS.parseInt (age b)) with
    | inr (d', lastInsertRowid) =>
        (d', json_data 201 (Some "Nurse created successfully")
                       (Row (Sqlite.get d' lastInsertRowid)))
    | inl e =>
        if is_unique_violation e
        then (d, json_error 400 "License number already exists")
        else (d, json_error 500 "Failed to create nurse")
    end.

(** [app.put('/api/nurses/:id')]: the existence check comes first. *)
Definition put_nurse (d : Sqlite.db) (now : string) (id : Z) (b : body)
  : Sqlite.db * response :=
  match Sqlite.get d id with
  | None => (d, json_error 404 "Nurse not found")
  | Some existingNurse =>
      if missing_field b then (d, json_error 400 all_fields_required)
      else
        match Sqlite.update d now (name b) (license_number b) (dob b)
                            (JS.parseInt (age b)) id with
        | inr d' =>
            (d', json_data 200 (Some "Nurse updated successfully")
                           (Row (Sqlite.get d' id)))
        | inl e =>
            if is_unique_violation e
            then (d, json_error 400 "License number already exists")
            else (d, json_error 500 "Failed to update nurse")
        end
  end.

(** [app.delete('/api/nurses/:id')] *)
Definition delete_nurse (d : Sqlite.db) (id : Z) : Sqlite.db * response :=
  match Sqlite.get d id with
  | None => (d, json_error 404 "Nurse not found")
  | Some existingNurse =>
      (Sqlite.delete d id, json_message 200 "Nurse deleted successfully")
  end.

End Server.

(** The state a fresh [src/server.js] starts from. *)
Definition empty_db : Sqlite.db :=
  {| Sqlite.nurses := ∅; Sqlite.sqlite_sequence := 0 |}.

Definition seeded_db : Sqlite.db := Server.seed empty_db "2024-01-01 00:00:00".


(* ===================================================================== *)
(** ** Dates                                                              *)
(* ===================================================================== *)

Module Date.

(** A valid [Date] object as the handlers observe it, through the
    local-time getters; [getMonth] counts from 0.  Which local fields
    [new Date(value)] has for an entered string depends on the time zone of
    the browser and is taken as given. *)
Record t := {
  getFullYear : Z;
  getMonth : Z;
  getDate : Z;
}.

Definition is_leap (y : Z) : bool :=
  (y mod 4 =? 0) && (negb (y mod 100 =? 0) || (y mod 400 =? 0)).

Definition days_in_month (y m : Z) : Z :=
  match m with
  | 1 | 3 | 5 | 7 | 8 | 10 | 12 => 31
  | 4 | 6 | 9 | 11 => 30
  | 2 => if is_leap y then 29 else 28
  | _ => 0
  end.

(** Day number of a civil date, counted from 1970-01-01. *)
Definition days_from_civil (y m d : Z) : Z :=
  let y' := if m <=? 2 then y - 1 else y in
  let era := y' / 400 in
  let yoe := y' - era * 400 in
  let doy := (153 * (if 2 <? m then m - 3 else m + 9) + 2) / 5 + d - 1 in
  let doe := yoe * 365 + yoe / 4 - yoe / 100 + doy in
  era * 146097 + doe - 719468.

Definition msPerDay : Z := 86400000.

Definition decimal_digit (c : ascii) : option Z :=
  let n := Z.of_N (N_of_ascii c) in
  if (48 <=? n) && (n <=? 57) then Some (n - 48) else None.

Fixpoint decimal (cs : list ascii) (acc : Z) : option Z :=
  match cs with
  | [] => Some acc
  | c :: cs' =>
      match decimal_digit c with
      | Some d => decimal cs' (10 * acc + d)
      | None => None
      end
  end.

(** Days of the year that lie before the month. *)
Definition days_before (y m : Z) : Z :=
  let leap := if is_leap y then 1 else 0 in
  match m with
  | 1 => 0
  | 2 => 31
  | 3 => 59 + leap
  | 4 => 90 + leap
  | 5 => 120 + leap
  | 6 => 151 + leap
  | 7 => 181 + leap
  | 8 => 212 + leap
  | 9 => 243 + leap
  | 10 => 273 + leap
  | 11 => 304 + leap
  | _ => 334 + leap
  end.

(** The year, month and day a date-only string of the ECMAScript date-time
    string format spells: [YYYY], [YYYY-MM] or [YYYY-MM-DD], with the month
    and the day in range. *)
Definition civil_of_string (s : string) : option (Z * Z * Z) :=
  match list_ascii_of_string s with
  | [y1; y2; y3; y4] =>
      y ← decimal [y1; y2; y3; y4] 0;
      Some (y, 1, 1)
  | [y1; y2; y3; y4; h1; m1; m2] =>
      y ← decimal [y1; y2; y3; y4] 0;
      m ← decimal [m1; m2] 0;
      if bool_decide (h1 = "-"%char) && (1 <=? m) && (m <=? 12)
      then Some (y, m, 1) else None
  | [y1; y2; y3; y4; h1; m1; m2; h2; d1; d2] =>
      y ← decimal [y1; y2; y3; y4] 0;
      m ← decimal [m1; m2] 0;
      d ← decimal [d1; d2] 0;
      if bool_decide (h1 = "-"%char) && bool_decide (h2 = "-"%char) &&
         (1 <=? m) && (m <=? 12) && (1 <=? d) && (d <=? days_in_month y m)
      then Some (y, m, d) else None
  | _ => None
  end.

(** The time value of [new Date(s)] for the date-only forms, which are read
    as UTC.  [None] is the [NaN] of an Invalid Date; other formats are left
    to the engine and read as invalid here. *)
Definition parse (s : string) : option Z :=
  '(y, m, d) ← civil_of_string s;
  Some (days_from_civil y m d * msPerDay).

End Date.

(* ===================================================================== *)
(** ** The table columns the views sort by, and the form fields           *)
(* ===================================================================== *)

(** The keys ['name'], ['license_number'], ['dob'] and ['age']: the sortable
    headers and the [name] attributes of the form inputs. *)
Inductive column := Name | LicenseNumber | Dob | Age.

#[global] Instance column_eq_dec : EqDecision column.
Proof. solve_decision. Defined.

(** ['asc'] and ['desc']. *)
Inductive direction := asc | desc.

#[global] Instance direction_eq_dec : EqDecision direction.
Proof. solve_decision. Defined.

(* ===================================================================== *)
(** ** src/frontend/src/App.jsx                                           *)
(* ===================================================================== *)

Module App.

(** The body of the [nurses.filter] callback. *)
Definition matches (debouncedSearchTerm : string) (nurse : nurse) : bool :=
  if bool_decide (debouncedSearchTerm = "") then true
  else
    let searchLower := JS.toLowerCase debouncedSearchTerm in
    JS.includes (JS.toLowerCase (name nurse)) searchLower ||
    JS.includes (JS.toLowerCase (license_number nurse)) searchLower ||
    JS.includes (dob nurse) searchLower ||
    JS.includes (JS.toString (age nurse)) searchLower.

Definition filteredNurses (nurses : list nurse) (debouncedSearchTerm : string)
  : list nurse :=
  List.filter (matches debouncedSearchTerm) nurses.

Record sortConfig := {
  key : option column;
  sort_direction : direction;
}.

(** [aVal] and [bVal] after the conversions of [handleSort]: [parseInt] for
    ['age'], the lower-cased string for every other key. *)
Definition sort_value (key : column) (a : nurse) : JS.operand :=
  match key with
  | Age => JS.Num (JS.parseInt (JS.JNum (age a)))
  | Name => JS.Str (JS.toLowerCase (name a))
  | LicenseNumber => JS.Str (JS.toLowerCase (license_number a))
  | Dob => JS.Str (JS.toLowerCase (dob a))
  end.

Definition comparefn (key : column) (direction : direction) (a b : nurse) : Z :=
  let aVal := sort_value key a in
  let bVal := sort_value key b in
  if JS.lt aVal bVal then (if decide (direction = asc) then -1 else 1)
  else if JS.gt aVal bVal then (if decide (direction = asc) then 1 else -1)
  else 0.

(** [handleSort(key)]: the new [sortConfig] and the new [nurses]. *)
Definition handleSort (cfg : sortConfig) (nurses : list nurse) (k : column)
  : sortConfig * list nurse :=
  let direction :=
    if bool_decide (key cfg = Some k) && bool_decide (sort_direction cfg = asc)
    then desc else asc in
  ({| key := Some k; sort_direction := direction |},
   JS.sort (comparefn k direction) nurses).

(** The modal's [formData]. *)
Record formData := {
  f_name : string;
  f_license_number : string;
  f_dob : string;
  f_age : string;
}.

(** [{ ...prev, [name]: value }] *)
Definition set_field (prev : formData) (name : column) (value : string) : formData :=
  match name with
  | Name => {| f_name := value; f_license_number := f_license_number prev;
               f_dob := f_dob prev; f_age := f_age prev |}
  | LicenseNumber => {| f_name := f_name prev; f_license_number := value;
                        f_dob := f_dob prev; f_age := f_age prev |}
  | Dob => {| f_name := f_name prev; f_license_number := f_license_number prev;
              f_dob := value; f_age := f_age prev |}
  | Age => {| f_name := f_name prev; f_license_number := f_license_number prev;
              f_dob := f_dob prev; f_age := value |}
  end.

(** The age computed in [handleChange] from [today] and [birthDate]. *)
Definition calculated_age (today birthDate : Date.t) : Z :=
  let age := Date.getFullYear today - Date.getFullYear birthDate in
  let monthDiff := Date.getMonth today - Date.getMonth birthDate in
  if (monthDiff <? 0) ||
     ((monthDiff =? 0) && (Date.getDate today <? Date.getDate birthDate))
  then age - 1 else age.

(** [handleChange(e)] with [e.target = {name, value}].  [today] is
    [new Date()] and [birthDate] is [new Date(value)], [None] when that is
    an Invalid Date, whose fields are [NaN]. *)
Definition handleChange (today : Date.t) (birthDate : option Date.t)
    (name : column) (value : string) (prev : formData) : formData :=
  let prev := set_field prev name value in
  if bool_decide (name = Dob) && negb (bool_decide (value = "")) then
    match birthDate with
    | Some birthDate => set_field prev Age (JS.toString (calculated_age today birthDate))
    | None => set_field prev Age "NaN"
    end
  else prev.

End App.

(* ===================================================================== *)
(** ** src/unnamed/part_000 (the vanilla client)                          *)
(* ===================================================================== *)

Module PublicApp.

(** [valueA] and [valueB] after the conversions of [sortNurses]. *)
Definition sort_value (column : column) (a : nurse) : JS.operand :=
  match column with
  | Age => JS.Num (JS.parseInt (JS.JNum (age a)))
  | Dob => JS.Num (Date.parse (dob a))
  | Name => JS.Str (JS.toLowerCase (name a))
  | LicenseNumber => JS.Str (JS.toLowerCase (license_number a))
  end.

Definition comparefn (column : column) (direction : direction) (a b : nurse) : Z :=
  let valueA := sort_value column a in
  let valueB := sort_value column b in
  if JS.lt valueA valueB then (if decide (direction = asc) then -1 else 1)
  else if JS.gt valueA valueB then (if decide (direction = asc) then 1 else -1)
  else 0.

(** [sortNurses(column, direction)] on the global [nurses]. *)
Definition sortNurses (column : column) (direction : direction)
    (nurses : list nurse) : list nurse :=
  JS.sort (comparefn column direction) nurses.

(** The globals the header click handler reads and writes. *)
Record state := {
  nurses : list nurse;
  currentSortColumn : option column;
  sortDirection : direction;
}.

(** The click listener installed by [setupSorting]. *)
Definition header_click (s : state) (column : column) : state :=
  let sortDirection :=
    if bool_decide (currentSortColumn s = Some column)
    then (if decide (sortDirection s = asc) then desc else asc)
    else asc in
  {| nurses := sortNurses column sortDirection (nurses s);
     currentSortColumn := Some column;
     sortDirection := sortDirection |}.

Definition calculated_age (today dob : Date.t) : Z :=
  let age := Date.getFullYear today - Date.getFullYear dob in
  let monthDiff := Date.getMonth today - Date.getMonth dob in
  if (monthDiff <? 0) ||
     ((monthDiff =? 0) && (Date.getDate today <? Date.getDate dob))
  then age - 1 else age.

(** The [change] listener of [nurseDob]: the new value of [nurseAge].
    [dob] is [new Date(e.target.value)], [None] when invalid: then [age]
    is [NaN] and [age > 0] is false. *)
Definition nurseDob_change (today : Date.t) (dob : option Date.t) : string :=
  match dob with
  | Some dob =>
      let age := calculated_age today dob in
      if 0 <? age then JS.toString age else ""
  | None => ""
  end.

End PublicApp.

(* ===================================================================== *)
(** ** The vocabulary of the specification                                *)
(* ===================================================================== *)

Module Spec.

(** A text field that is absent or empty. *)
Definition absent_or_empty (o : option string) : Prop :=
  o = None \/ o = Some "".

(** The [age] field absent ([undefined] or [null]) or empty. *)
Definition age_absent_or_empty (v : JS.jsval) : Prop :=
  v = JS.JUndefined \/ v = JS.JNull \/ v = JS.JStr "".

(** A text field present and non-empty. *)
Definition present (o : option string) : Prop :=
  exists s, o = Some s /\ s <> "".

(** [age] coercible to an integer. *)
Definition coercible (v : JS.jsval) : Prop := is_Some (JS.parseInt v).

(** The value of a string up to case. *)
Definition fold_case (s : string) : string := JS.toLowerCase s.

(** What a column is compared by: the age as an integer, every other
    column as its case-insensitive string value, except that the dob is
    compared as a calendar date, through its time value, when
    [dob_as_date] is set. *)
Definition sort_key (dob_as_date : bool) (c : column) (n : nurse) : JS.operand :=
  match c with
  | Age => JS.Num (Some (age n))
  | Dob => if dob_as_date then JS.Num (Date.parse (dob n))
           else JS.Str (fold_case (dob n))
  | Name => JS.Str (fold_case (name n))
  | LicenseNumber => JS.Str (fold_case (license_number n))
  end.

(** The order of integers and time values, and the lexicographic order of
    strings. *)
Definition operand_le (x y : JS.operand) : Prop :=
  match x, y with
  | JS.Num (Some a), JS.Num (Some b) => a <= b
  | JS.Str s, JS.Str t => String.leb s t = true
  | _, _ => False
  end.

(** Operands that [<] orders: two numbers that are not [NaN], or two
    strings. *)
Definition comparable (x y : JS.operand) : Prop :=
  match x, y with
  | JS.Num (Some _), JS.Num (Some _) | JS.Str _, JS.Str _ => True
  | _, _ => False
  end.

Definition in_order (d : direction) (x y : JS.operand) : Prop :=
  match d with
  | asc => operand_le x y
  | desc => operand_le y x
  end.

(** [output] is [input] sorted by [key] for the order [R], with ties
    resolving to input order: the records of any one key value come in the
    order they had. *)
Definition stable_sort_of {A} (key : A -> JS.operand)
    (R : JS.operand -> JS.operand -> Prop) (input output : list A) : Prop :=
  output ≡ₚ input /\
  StronglySorted (fun a b => R (key a) (key b)) output /\
  forall k, filter (fun a => key a = k) output = filter (fun a => key a = k) input.

(** A dob that is a date. *)
Definition valid_date (n : nurse) : Prop := is_Some (Date.parse (dob n)).

#[global] Instance valid_date_dec n : Decision (valid_date n).
Proof. unfold valid_date. apply _. Defined.

(** A dob that is a date spelled in full, [YYYY-MM-DD]. *)
Definition full_date (n : nurse) : Prop :=
  String.length (dob n) = 10%nat /\ valid_date n.

#[global] Instance full_date_dec n : Decision (full_date n).
Proof. unfold full_date. apply _. Defined.





(** The candidate age: the difference of the calendar years, less one
    exactly when the month and day of the dob have not yet occurred in the
    current year. *)
Definition not_yet_occurred (today dob : Date.t) : Prop :=
  Date.getMonth today < Date.getMonth dob \/
  (Date.getMonth today = Date.getMonth dob /\ Date.getDate today < Date.getDate dob).

#[global] Instance not_yet_occurred_dec today dob : Decision (not_yet_occurred today dob).
Proof. unfold not_yet_occurred. apply _. Defined.



End Spec.

(* ===================================================================== *)
(** ** The routes, and runs of requests                                   *)
(* ===================================================================== *)

Module Api.

(** The five routes both servers register. *)
Inductive request :=
| GET_nurses
| GET_nurse (nurse_id : Z)
| POST_nurses (b : Request.body)
| PUT_nurse (nurse_id : Z) (b : Request.body)
| DELETE_nurse (nurse_id : Z).

(** [src/backend/server.js]: the handler a request is routed to. *)
Definition backend (d : Sqlite.db) (now : string) (q : request) : Sqlite.db * response :=
  match q with
  | GET_nurses => Backend.get_nurses d
  | GET_nurse i => Backend.get_nurse d i
  | POST_nurses b => Backend.post_nurses d now b
  | PUT_nurse i b => Backend.put_nurse d now i b
  | DELETE_nurse i => Backend.delete_nurse d i
  end.

(** [src/server.js]: the handler a request is routed to. *)
Definition server (d : Sqlite.db) (now : string) (q : request) : Sqlite.db * response :=
  match q with
  | GET_nurses => Server.get_nurses d
  | GET_nurse i => Server.get_nurse d i
  | POST_nurses b => Server.post_nurses d now b
  | PUT_nurse i b => Server.put_nurse d now i b
  | DELETE_nurse i => Server.delete_nurse d i
  end.

(** Requests served one after the other, each at its own time: the final
    state and the answers in order. *)
Fixpoint run (app : Sqlite.db -> string -> request -> Sqlite.db * response)
    (d : Sqlite.db) (trace : list (string * request)) : Sqlite.db * list response :=
  match trace with
  | [] => (d, [])
  | (now, q) :: trace' =>
      let '(d', r) := app d now q in
      let '(d'', rs) := run app d' trace' in
      (d'', r :: rs)
  end.

(** [response.ok] of [fetch]. *)
Definition ok (r : response) : bool := (200 <=? status r) && (status r <=? 299).

(** The record in the body of an answer, if any. *)
Definition record (r : response) : option nurse :=
  match data r with
  | Some (Row n) => n
  | _ => None
  end.

(** The record set in the body of an answer, if any. *)
Definition records (r : response) : option (list nurse) :=
  match data r with
  | Some (Rows l) => Some l
  | _ => None
  end.

(** [data.error || fallback] *)
Definition error_or (r : response) (fallback : string) : string :=
  match error r with
  | Some e => if bool_decide (e = "") then fallback else e
  | None => fallback
  end.

End Api.

(* ===================================================================== *)
(** ** src/frontend/src/App.jsx: the client state and the form            *)
(* ===================================================================== *)

Module AppClient.

(** What a promise of [useNursesApi] settles to. *)
Inductive outcome :=
| Resolved (n : option nurse)
| Rejected (message : string).

(** [JSON.stringify(formData)]: every field of the modal is a string. *)
Definition body_of (f : App.formData) : Request.body :=
  {| Request.name := Some (App.f_name f);
     Request.license_number := Some (App.f_license_number f);
     Request.dob := Some (App.f_dob f);
     Request.age := JS.JStr (App.f_age f) |}.

(** [fetchNurses]: the state is replaced by the list the server sends. *)
Definition fetchNurses (d : Sqlite.db) (nurses : list nurse) : Sqlite.db * list nurse :=
  let '(d', r) := Backend.get_nurses d in
  if Api.ok r then
    match Api.records r with
    | Some data => (d', data)
    | None => (d', nurses)
    end
  else (d', nurses).

(** [createNurse(nurseData)]: on a 2xx answer the new record is prepended.
    A 2xx answer always carries the record; the branch without one stands
    for the failure of [response.json()]. *)
Definition createNurse (d : Sqlite.db) (now : string) (nurses : list nurse)
    (nurseData : App.formData) : Sqlite.db * list nurse * outcome :=
  let '(d', r) := Backend.post_nurses d now (body_of nurseData) in
  if Api.ok r then
    match Api.record r with
    | Some newNurse => (d', newNurse :: nurses, Resolved (Some newNurse))
    | None => (d', nurses, Rejected "Unexpected end of JSON input")
    end
  else (d', nurses, Rejected (Api.error_or r "Failed to create nurse")).

(** [updateNurse(id, nurseData)]: on a 2xx answer every element with that
    id is replaced by the updated record. *)
Definition updateNurse (d : Sqlite.db) (now : string) (nurses : list nurse)
    (nurse_id : Z) (nurseData : App.formData) : Sqlite.db * list nurse * outcome :=
  let '(d', r) := Backend.put_nurse d now nurse_id (body_of nurseData) in
  if Api.ok r then
    match Api.record r with
    | Some updatedNurse =>
        (d', (fun nurse => if bool_decide (id nurse = nurse_id)
                           then updatedNurse else nurse) <$> nurses,
         Resolved (Some updatedNurse))
    | None => (d', nurses, Rejected "Unexpected end of JSON input")
    end
  else (d', nurses, Rejected (Api.error_or r "Failed to update nurse")).

(** [deleteNurse(id)]: on a 2xx answer the elements with that id go. *)
Definition deleteNurse (d : Sqlite.db) (nurses : list nurse) (nurse_id : Z)
  : Sqlite.db * list nurse * outcome :=
  let '(d', r) := Backend.delete_nurse d nurse_id in
  if Api.ok r then
    (d', List.filter (fun nurse => negb (bool_decide (id nurse = nurse_id))) nurses,
     Resolved None)
  else (d', nurses, Rejected (Api.error_or r "Failed to delete nurse")).

(** [!formData.name || !formData.license_number || !formData.dob ||
    !formData.age] in [handleSubmit]. *)
Definition incomplete (f : App.formData) : bool :=
  bool_decide (App.f_name f = "") || bool_decide (App.f_license_number f = "") ||
  bool_decide (App.f_dob f = "") || bool_decide (App.f_age f = "").

(** [handleSubmit] with [onSave = handleSave]: the new server state, the new
    client state and the [formError] left in the modal ([None] when the
    modal closes). *)
Definition handleSubmit (editingNurse : option nurse) (d : Sqlite.db) (now : string)
    (nurses : list nurse) (f : App.formData)
  : Sqlite.db * list nurse * option string :=
  if incomplete f then (d, nurses, Some "All fields are required")
  else
    let '(d', nurses', o) :=
      match editingNurse with
      | Some n => updateNurse d now nurses (id n) f
      | None => createNurse d now nurses f
      end in
    match o with
    | Resolved _ => (d', nurses', None)
    | Rejected m => (d', nurses', Some m)
    end.

(** [values.join(sep)] on strings. *)
Fixpoint join (sep : string) (values : list string) : string :=
  match values with
  | [] => ""
  | [v] => v
  | v :: values' => v +:+ sep +:+ join sep values'
  end.

Definition headers : list string :=
  ["Name"; "License Number"; "Date of Birth"; "Age"].

(** A row of [downloadAsCSV]. *)
Definition csv_row (nurse : nurse) : string :=
  join "," [name nurse; license_number nurse; dob nurse; JS.toString (age nurse)].

(** The text [downloadAsCSV] saves for the filtered collection. *)
Definition downloadAsCSV (filteredNurses : list nurse) : string :=
  join (String "010" "") (join "," headers :: (csv_row <$> filteredNurses)).

End AppClient.

(* ===================================================================== *)
(** ** src/unnamed/part_000: the client state and the form                *)
(* ===================================================================== *)

Module PublicAppClient.

(** [s.trim()], on the white space of [JS.is_white_space]. *)
Fixpoint trim_end (s : string) : string :=
  match s with
  | String c s' =>
      let t := trim_end s' in
      if JS.is_white_space c && bool_decide (t = "") then "" else String c t
  | EmptyString => EmptyString
  end.

Definition trim (s : string) : string := trim_end (JS.trim_start s).

(** The values of the inputs [nurseName], [licenseNumber], [nurseDob] and
    [nurseAge]. *)
Record inputs := {
  nurseName : string;
  licenseNumber : string;
  nurseDob : string;
  nurseAge : string;
}.

(** The [formData] of [handleFormSubmit]; its age is [parseInt] of the
    input, [None] for [NaN]. *)
Record formData := {
  fd_name : string;
  fd_license_number : string;
  fd_dob : string;
  fd_age : option Z;
}.

Definition read_form (i : inputs) : formData :=
  {| fd_name := trim (nurseName i);
     fd_license_number := trim (licenseNumber i);
     fd_dob := nurseDob i;
     fd_age := JS.parseInt_string (nurseAge i) |}.

(** [!formData.name || !formData.license_number || !formData.dob ||
    !formData.age]: [NaN] and 0 are falsy. *)
Definition incomplete (f : formData) : bool :=
  bool_decide (fd_name f = "") || bool_decide (fd_license_number f = "") ||
  bool_decide (fd_dob f = "") ||
  match fd_age f with
  | Some a => a =? 0
  | None => true
  end.

(** [JSON.stringify(formData)]: [NaN] is written as [null]. *)
Definition body_of (f : formData) : Request.body :=
  {| Request.name := Some (fd_name f);
     Request.license_number := Some (fd_license_number f);
     Request.dob := Some (fd_dob f);
     Request.age := match fd_age f with
                    | Some a => JS.JNum a
                    | None => JS.JNull
                    end |}.

(** [editingNurseId ? ... : ...]: [null] and 0 are falsy. *)
Definition editing (editingNurseId : option Z) : option Z :=
  match editingNurseId with
  | Some i => if i =? 0 then None else Some i
  | None => None
  end.

(** [nurses[index] = data] where [index = nurses.findIndex(n => n.id ===
    editingNurseId)], nothing when the index is -1. *)
Definition replace_first (nurses : list nurse) (editingNurseId : Z) (data : nurse)
  : list nurse :=
  match list_find (fun n => id n = editingNurseId) nurses with
  | Some (index, _) => <[index := data]> nurses
  | None => nurses
  end.

(** [handleFormSubmit]: the new server state, the new [nurses] and the toast
    shown.  An answer with [success] carries the record. *)
Definition handleFormSubmit (d : Sqlite.db) (now : string) (nurses : list nurse)
    (editingNurseId : option Z) (i : inputs)
  : Sqlite.db * list nurse * string :=
  let formData := read_form i in
  if incomplete formData then (d, nurses, "Please fill in all fields")
  else
    let '(d', result) :=
      match editing editingNurseId with
      | Some nurse_id => Server.put_nurse d now nurse_id (body_of formData)
      | None => Server.post_nurses d now (body_of formData)
      end in
    if bool_decide (success result = Some true) then
      match Api.record result, editing editingNurseId with
      | Some data, Some nurse_id =>
          (d', replace_first nurses nurse_id data, "Nurse updated successfully")
      | Some data, None => (d', data :: nurses, "Nurse added successfully")
      | None, _ => (d', nurses, "Failed to save nurse. Please try again.")
      end
    else (d', nurses, Api.error_or result "Failed to save nurse. Please try again.").

(** [deleteNurse(id)] *)
Definition deleteNurse (d : Sqlite.db) (nurses : list nurse) (nurse_id : Z)
  : Sqlite.db * list nurse * string :=
  let '(d', result) := Server.delete_nurse d nurse_id in
  if bool_decide (success result = Some true) then
    (d', List.filter (fun n => negb (bool_decide (id n = nurse_id))) nurses,
     "Nurse deleted successfully")
  else (d', nurses, "Failed to delete nurse. Please try again.").

(** [fetchNurses] *)
Definition fetchNurses (d : Sqlite.db) (nurses : list nurse) : Sqlite.db * list nurse :=
  let '(d', result) := Server.get_nurses d in
  if Api.ok result && bool_decide (success result = Some true) then
    match Api.records result with
    | Some data => (d', data)
    | None => (d', nurses)
    end
  else (d', nurses).

End PublicAppClient.

(* ===================================================================== *)
(** ** More vocabulary: the invariants of the store                       *)
(* ===================================================================== *)

Module Store.

(** Every id is positive and at most the recorded sequence value. *)
Definition ids_in_sequence (d : Sqlite.db) : Prop :=
  forall i r, Sqlite.nurses d !! i = Some r -> 1 <= i <= Sqlite.sqlite_sequence d.

(** No two rows hold the same license number. *)
Definition licenses_unique (d : Sqlite.db) : Prop :=
  forall i j r r',
    Sqlite.nurses d !! i = Some r -> Sqlite.nurses d !! j = Some r' ->
    Sqlite.license_number r = Sqlite.license_number r' -> i = j.

(** Name, license number and dob of every row are non-empty. *)
Definition fields_filled (d : Sqlite.db) : Prop :=
  forall i r, Sqlite.nurses d !! i = Some r ->
    Sqlite.name r <> "" /\ Sqlite.license_number r <> "" /\ Sqlite.dob r <> "".

Definition ok (d : Sqlite.db) : Prop :=
  ids_in_sequence d /\ licenses_unique d /\ fields_filled d.

(** The id a 201 answer carries. *)
Definition created_id_of (r : response) : option Z :=
  if status r =? 201 then id <$> Api.record r else None.

(** The ids of the records the create requests of a run were answered
    with, in order. *)
Definition created_ids (rs : list response) : list Z :=
  omap created_id_of rs.

(** The sequence value never decreases, and an id a request is answered
    with on creation is above the sequence value before the request and is
    the sequence value after it. *)
Definition advances
    (app : Sqlite.db -> string -> Api.request -> Sqlite.db * response) : Prop :=
  forall d now q,
    Sqlite.sqlite_sequence d <= Sqlite.sqlite_sequence (app d now q).1 /\
    forall j, created_id_of (app d now q).2 = Some j ->
              Sqlite.sqlite_sequence d < j /\ j = Sqlite.sqlite_sequence (app d now q).1.

(** The client state mirrors the table: the same records, in any order. *)
Definition mirrors (nurses : list nurse) (d : Sqlite.db) : Prop :=
  nurses ≡ₚ Sqlite.all_desc d.

End Store.

(* ===================================================================== *)
(** ** More vocabulary: reading a CSV text                                *)
(* ===================================================================== *)

Module Csv.

(** [s.split(c)] for a separator of one character. *)
Fixpoint split (c : ascii) (s : string) : list string :=
  match s with
  | EmptyString => [""]
  | String a s' =>
      if bool_decide (a = c) then "" :: split c s'
      else
        match split c s' with
        | h :: t => String a h :: t
        | [] => [String a ""]
        end
  end.

(** The cells of a record in the order of [AppClient.headers]. *)
Definition cells (n : nurse) : list string :=
  [name n; license_number n; dob n; JS.toString (age n)].

(** A cell that holds neither a comma nor a line feed. *)
Definition plain (s : string) : Prop :=
  JS.includes s "," = false /\ JS.includes s (String "010" "") = false.

#[global] Instance plain_dec s : Decision (plain s).
Proof. unfold plain. apply _. Defined.

End Csv.

(* ===================================================================== *)
(** * Properties                                                          *)
(* ===================================================================== *)

(** ** The table *)

Section SqliteFacts.
Implicit Types (d : Sqlite.db) (t : gmap Z Sqlite.row).

Lemma license_taken_true t lic except :
  Sqlite.license_taken t lic except = true <->
  exists i r, t !! i = Some r /\ Sqlite.license_number r = lic /\ Some i <> except.
Proof.
  unfold Sqlite.license_taken. rewrite existsb_exists. split.
  - intros [[i r] [Hin Hb]]. simpl in Hb.
    apply andb_true_iff in Hb as [Hl He].
    apply bool_decide_eq_true in Hl. apply negb_true_iff in He.
    apply bool_decide_eq_false in He.
    exists i, r. split; [|done].
    apply elem_of_map_to_list. by apply list_elem_of_In.
  - intros (i & r & Hi & Hl & He). exists (i, r). split.
    + apply list_elem_of_In. by apply elem_of_map_to_list.
    + simpl. apply andb_true_iff. split.
      * by apply bool_decide_eq_true.
      * apply negb_true_iff. by apply bool_decide_eq_false.
Qed.


Lemma unique_failed_is_unique_violation :
  is_unique_violation Sqlite.unique_failed = true.
Proof. reflexivity. Qed.



Lemma get_None d i : Sqlite.nurses d !! i = None -> Sqlite.get d i = None.
Proof. unfold Sqlite.get. by intros ->. Qed.

Lemma get_Some d i r :
  Sqlite.nurses d !! i = Some r -> Sqlite.get d i = Some (Sqlite.to_nurse (i, r)).
Proof. unfold Sqlite.get. by intros ->. Qed.

Lemma get_delete d i : Sqlite.get (Sqlite.delete d i) i = None.
Proof. unfold Sqlite.get, Sqlite.delete. simpl. by rewrite lookup_delete_eq. Qed.

Lemma not_text_false o :
  JS.not_text o = false <-> exists s, o = Some s /\ s <> "".
Proof.
  destruct o as [s|]; simpl.
  - rewrite bool_decide_eq_false. split; [eauto|]. by intros (? & [= <-] & ?).
  - split; [done|]. by intros (? & ? & ?).
Qed.

Lemma not_text_true o :
  JS.not_text o = true <-> o = None \/ o = Some "".
Proof.
  destruct o as [s|]; simpl.
  - rewrite bool_decide_eq_true. split; [intros ->; by right|].
    by intros [|[= ->]].
  - split; [by left|done].
Qed.
End SqliteFacts.

(** ** The handlers *)

Section Handlers.
Implicit Types (d : Sqlite.db) (b : Request.body).

Lemma Backend_post_missing d now b :
  Backend.missing_field b = true ->
  Backend.post_nurses d now b = (d, Backend.json_error 400 "All fields are required").
Proof. unfold Backend.post_nurses. by intros ->. Qed.

Lemma Backend_put_missing d now i b :
  Backend.missing_field b = true ->
  Backend.put_nurse d now i b = (d, Backend.json_error 400 "All fields are required").
Proof. unfold Backend.put_nurse. by intros ->. Qed.

Lemma Server_post_missing d now b :
  Server.missing_field b = true ->
  Server.post_nurses d now b = (d, Server.json_error 400 Server.all_fields_required).
Proof. unfold Server.post_nurses. by intros ->. Qed.

Lemma Server_put_absent d now i b :
  Sqlite.nurses d !! i = None ->
  Server.put_nurse d now i b = (d, Server.json_error 404 "Nurse not found").
Proof. intros Hi. unfold Server.put_nurse. by rewrite (get_None _ _ Hi). Qed.

Lemma Server_put_missing d now i b :
  is_Some (Sqlite.nurses d !! i) ->
  Server.missing_field b = true ->
  Server.put_nurse d now i b = (d, Server.json_error 400 Server.all_fields_required).
Proof.
  intros [r Hi] Hm. unfold Server.put_nurse.
  by rewrite (get_Some _ _ _ Hi), Hm.
Qed.

Lemma Backend_put_absent d now i b :
  Sqlite.nurses d !! i = None ->
  Backend.missing_field b = false ->
  Backend.put_nurse d now i b = (d, Backend.json_error 404 "Nurse not found").
Proof.
  intros Hi Hm. unfold Backend.put_nurse. by rewrite Hm, (get_None _ _ Hi).
Qed.




End Handlers.

(** ** Listing *)

Section Listing.
Implicit Types (d : Sqlite.db).

#[local] Instance id_desc_trans : Transitive Sqlite.id_desc.
Proof. unfold Sqlite.id_desc. intros a b c ??. lia. Qed.

#[local] Instance id_desc_total : Total Sqlite.id_desc.
Proof. unfold Sqlite.id_desc. intros a b. lia. Qed.

Lemma id_to_nurse (p : Z * Sqlite.row) : id (Sqlite.to_nurse p) = p.1.
Proof. reflexivity. Qed.

Lemma all_desc_Permutation d :
  Sqlite.all_desc d ≡ₚ Sqlite.to_nurse <$> map_to_list (Sqlite.nurses d).
Proof. apply merge_sort_Permutation. Qed.

Lemma all_desc_NoDup_id d : NoDup (id <$> Sqlite.all_desc d).
Proof.
  rewrite all_desc_Permutation, <- list_fmap_compose.
  rewrite (list_fmap_ext (id ∘ Sqlite.to_nurse) fst (map_to_list (Sqlite.nurses d)))
    by (intros; apply id_to_nurse).
  apply NoDup_fst_map_to_list.
Qed.

Lemma elem_of_all_desc d n :
  n ∈ Sqlite.all_desc d <-> Sqlite.get d (id n) = Some n.
Proof.
  rewrite all_desc_Permutation, list_elem_of_fmap. unfold Sqlite.get. split.
  - intros ([i r] & -> & Hin). apply elem_of_map_to_list in Hin.
    simpl. by rewrite Hin.
  - intros Hg. destruct (Sqlite.nurses d !! id n) as [r|] eqn:Hi; [|done].
    exists (id n, r). split; [by injection Hg|].
    by apply elem_of_map_to_list.
Qed.

(** A list sorted for [<=] on a key that has no duplicate is sorted for [<]. *)
Lemma StronglySorted_strict {A} (key : A -> Z) (l : list A) :
  StronglySorted (fun a b => key b <= key a) l ->
  NoDup (key <$> l) ->
  StronglySorted (fun a b => key b < key a) l.
Proof.
  induction 1 as [|a l Hs IH Hall]; intros Hnd; [constructor|].
  rewrite fmap_cons in Hnd. apply NoDup_cons in Hnd as [Hnotin Hnd].
  constructor; [by apply IH|].
  rewrite Forall_forall in Hall |- *. intros x Hx.
  assert (key x <> key a).
  { intros Heq. apply Hnotin. rewrite <- Heq. apply list_elem_of_fmap. eauto. }
  specialize (Hall x Hx). lia.
Qed.

Lemma all_desc_strictly_descending d :
  StronglySorted (fun a b => id b < id a) (Sqlite.all_desc d).
Proof.
  apply StronglySorted_strict; [|apply all_desc_NoDup_id].
  apply (StronglySorted_merge_sort Sqlite.id_desc).
Qed.
End Listing.

(* ===================================================================== *)
(** * The claims about the API                                            *)
(* ===================================================================== *)


(** A repeated license number with an age that does not parse: the NOT NULL
    constraint on [age] fails first and the answer is 500. *)
Example duplicate_license_unparsable_age :
  let b := {| Request.name := Some "Sara Jonson";
              Request.license_number := Some "RN-2024-001";
              Request.dob := Some "1985-03-15";
              Request.age := JS.JStr "thirty" |} in
  Backend.post_nurses seeded_db "2024-06-01 10:00:00" b
    = (seeded_db, Backend.json_error 500 "Failed to create nurse") /\
  Server.post_nurses seeded_db "2024-06-01 10:00:00" b
    = (seeded_db, Server.json_error 500 "Failed to create nurse").
Proof. by vm_compute. Qed.



(** C2, as stated, fails: [src/backend/server.js] validates the body before
    it looks the id up, so an update of an absent id with an empty body is
    answered 400, not 404. *)
Lemma C2_counterexample :
  let b := {| Request.name := None; Request.license_number := None;
              Request.dob := None; Request.age := JS.JUndefined |} in
  Sqlite.nurses seeded_db !! 99 = None /\
  Backend.put_nurse seeded_db "2024-06-01 10:00:00" 99 b
    = (seeded_db, Backend.json_error 400 "All fields are required") /\
  status (Backend.put_nurse seeded_db "2024-06-01 10:00:00" 99 b).2 <> 404.
Proof. by vm_compute. Qed.

(** C2 (amended).  For every store state and every id not in the store,
    [PUT /api/nurses/:id] leaves the store unchanged on either server.
    [src/server.js] answers 404 with the NotFound message for any body;
    [src/backend/server.js] answers 404 with the NotFound message for a body
    that passes its field validation and 400 with the validation message for
    one that does not. *)
Theorem C2_update_absent_id d now i b :
  Sqlite.nurses d !! i = None ->
  Server.put_nurse d now i b = (d, Server.json_error 404 "Nurse not found") /\
  (Backend.put_nurse d now i b).1 = d /\
  (Backend.missing_field b = false ->
   Backend.put_nurse d now i b = (d, Backend.json_error 404 "Nurse not found")) /\
  (Backend.missing_field b = true ->
   Backend.put_nurse d now i b = (d, Backend.json_error 400 "All fields are required")).
Proof.
  intros Hi. split; [by apply Server_put_absent|].
  split; [|split].
  - destruct (Backend.missing_field b) eqn:Hm.
    + by rewrite Backend_put_missing.
    + by rewrite Backend_put_absent.
  - by apply Backend_put_absent.
  - by apply Backend_put_missing.
Qed.

Lemma C2_update_absent_id_witness :
  let b := {| Request.name := Some "Ann Lee"; Request.license_number := Some "RN-1";
              Request.dob := Some "1990-01-01"; Request.age := JS.JNum 34 |} in
  let now := "2024-06-01 10:00:00" in
  Server.put_nurse seeded_db now 99 b
    = (seeded_db, Server.json_error 404 "Nurse not found") /\
  Backend.put_nurse seeded_db now 99 b
    = (seeded_db, Backend.json_error 404 "Nurse not found").
Proof.
  intros b now.
  destruct (C2_update_absent_id seeded_db now 99 b) as (H1 & _ & H3 & _).
  - vm_compute. reflexivity.
  - split; [exact H1|]. apply H3. reflexivity.
Defined.

(** C10.  In [src/server.js] the update handler looks the id up before it
    validates the body: for every id absent from the store the answer is 404
    with the NotFound message and the store is unchanged, whatever the body,
    and so also when the body fails the validation; the validation message is
    the answer to such a body only when the id is in the store. *)
Theorem C10_not_found_precedes_validation d now i b :
  (Sqlite.nurses d !! i = None ->
   Server.put_nurse d now i b = (d, Server.json_error 404 "Nurse not found")) /\
  (is_Some (Sqlite.nurses d !! i) -> Server.missing_field b = true ->
   Server.put_nurse d now i b
   = (d, Server.json_error 400 Server.all_fields_required)).
Proof.
  split.
  - apply Server_put_absent.
  - apply Server_put_missing.
Qed.

Lemma C10_not_found_precedes_validation_witness :
  let b := {| Request.name := Some ""; Request.license_number := None;
              Request.dob := None; Request.age := JS.JStr "" |} in
  let now := "2024-06-01 10:00:00" in
  Server.missing_field b = true /\
  Server.put_nurse seeded_db now 99 b
    = (seeded_db, Server.json_error 404 "Nurse not found") /\
  Server.put_nurse seeded_db now 3 b
    = (seeded_db, Server.json_error 400 Server.all_fields_required).
Proof.
  intros b now. split; [reflexivity|].
  destruct (C10_not_found_precedes_validation seeded_db now 99 b) as [H99 _].
  destruct (C10_not_found_precedes_validation seeded_db now 3 b) as [_ H3].
  split.
  - apply H99. vm_compute. reflexivity.
  - apply H3; [|reflexivity]. vm_compute. eexists. reflexivity.
Defined.

(** C7.  For every store state that holds a record with the given id,
    [DELETE /api/nurses/:id] succeeds with status 200 and a following
    [GET /api/nurses/:id] on the same id fails with status 404 and the
    NotFound message, on either server. *)
Theorem C7_delete_then_get d i :
  is_Some (Sqlite.nurses d !! i) ->
  (let '(d', r) := Backend.delete_nurse d i in
   r = Backend.json_message 200 "Nurse deleted successfully" /\
   Backend.get_nurse d' i = (d', Backend.json_error 404 "Nurse not found")) /\
  (let '(d', r) := Server.delete_nurse d i in
   r = Server.json_message 200 "Nurse deleted successfully" /\
   Server.get_nurse d' i = (d', Server.json_error 404 "Nurse not found")).
Proof.
  intros [r Hi].
  unfold Backend.delete_nurse, Server.delete_nurse, Backend.get_nurse, Server.get_nurse.
  rewrite (get_Some _ _ _ Hi), !get_delete. done.
Qed.

Lemma C7_delete_then_get_witness :
  status (Backend.delete_nurse seeded_db 3).2 = 200 /\
  status (Backend.get_nurse (Backend.delete_nurse seeded_db 3).1 3).2 = 404 /\
  status (Server.delete_nurse seeded_db 3).2 = 200 /\
  status (Server.get_nurse (Server.delete_nurse seeded_db 3).1 3).2 = 404.
Proof.
  destruct (C7_delete_then_get seeded_db 3) as [HB HS].
  - vm_compute. eexists. reflexivity.
  - destruct (Backend.delete_nurse seeded_db 3) as [d1 r1].
    destruct (Server.delete_nurse seeded_db 3) as [d2 r2].
    destruct HB as [-> HB], HS as [-> HS]. simpl. rewrite HB, HS. done.
Defined.

(** C8.  For every store state, [GET /api/nurses] answers 200 with all the
    records of the store, each once, in strictly descending order of id
    (newest id first), on either server. *)
Theorem C8_list_newest_first d :
  exists l,
    Backend.get_nurses d = (d, Backend.json_data 200 (Rows l)) /\
    Server.get_nurses d = (d, Server.json_data 200 None (Rows l)) /\
    l ≡ₚ Sqlite.to_nurse <$> map_to_list (Sqlite.nurses d) /\
    (forall n, n ∈ l <-> Sqlite.get d (id n) = Some n) /\
    length l = Sqlite.count d /\
    StronglySorted (fun a b => id b < id a) l.
Proof.
  exists (Sqlite.all_desc d). repeat split.
  - apply all_desc_Permutation.
  - by apply elem_of_all_desc.
  - by apply elem_of_all_desc.
  - rewrite all_desc_Permutation, length_fmap. apply length_map_to_list.
  - apply all_desc_strictly_descending.
Qed.

Section Validation.
Implicit Types (b : Request.body).

Lemma not_age_absent_or_empty v : Spec.age_absent_or_empty v -> JS.not v = true.
Proof. by intros [->|[->| ->]]. Qed.

Lemma Backend_missing_field_true b :
  Backend.missing_field b = true <->
  Spec.absent_or_empty (Request.name b) \/
  Spec.absent_or_empty (Request.license_number b) \/
  Spec.absent_or_empty (Request.dob b) \/
  Request.age b = JS.JUndefined.
Proof.
  unfold Backend.missing_field, Spec.absent_or_empty.
  rewrite !orb_true_iff, !not_text_true.
  assert (JS.is_undefined (Request.age b) = true <-> Request.age b = JS.JUndefined)
    as -> by (destruct (Request.age b); simpl; split; congruence).
  tauto.
Qed.

Lemma Server_missing_field_true b :
  Server.missing_field b = true <->
  Spec.absent_or_empty (Request.name b) \/
  Spec.absent_or_empty (Request.license_number b) \/
  Spec.absent_or_empty (Request.dob b) \/
  JS.not (Request.age b) = true.
Proof.
  unfold Server.missing_field, Spec.absent_or_empty.
  rewrite !orb_true_iff, !not_text_true. tauto.
Qed.

Lemma present_not_text o : Spec.present o -> JS.not_text o = false.
Proof. intros H. by apply not_text_false. Qed.

(** What [!age] rejects among the ages that parse: the number 0 only,
    besides the empty or absent ones. *)
Lemma not_coercible_age v :
  Spec.coercible v -> JS.not v = true -> v = JS.JStr "" \/ v = JS.JNum 0.
Proof.
  intros [a Ha]. destruct v as [| |[]|n|s]; simpl; try done.
  - intros ?%Z.eqb_eq. right. by f_equal.
  - intros ->%bool_decide_eq_true. by left.
Qed.
End Validation.

(** C3, as stated, fails in three places.  In [src/backend/server.js] an
    empty [age] passes the validation ([age === undefined] is false) and the
    request dies on the NOT NULL constraint with 500; in [src/server.js] an
    update of an absent id with all fields missing is answered 404; and in
    [src/server.js] a request with every field set and the number 0 for age
    is rejected by [!age]. *)
Lemma C3_counterexample :
  let now := "2024-06-01 10:00:00" in
  let empty_age := {| Request.name := Some "Ann Lee";
                      Request.license_number := Some "RN-1";
                      Request.dob := Some "1990-01-01";
                      Request.age := JS.JStr "" |} in
  let no_fields := {| Request.name := None; Request.license_number := None;
                      Request.dob := None; Request.age := JS.JUndefined |} in
  let age_zero := {| Request.name := Some "Ann Lee";
                     Request.license_number := Some "RN-1";
                     Request.dob := Some "2024-01-01";
                     Request.age := JS.JNum 0 |} in
  (Spec.age_absent_or_empty (Request.age empty_age) /\
   Backend.post_nurses seeded_db now empty_age
     = (seeded_db, Backend.json_error 500 "Failed to create nurse") /\
   Backend.put_nurse seeded_db now 1 empty_age
     = (seeded_db, Backend.json_error 500 "Failed to update nurse")) /\
  (Spec.absent_or_empty (Request.name no_fields) /\
   Server.put_nurse seeded_db now 99 no_fields
     = (seeded_db, Server.json_error 404 "Nurse not found")) /\
  (Spec.present (Request.name age_zero) /\
   Spec.present (Request.license_number age_zero) /\
   Spec.present (Request.dob age_zero) /\
   ~ Spec.age_absent_or_empty (Request.age age_zero) /\
   Spec.coercible (Request.age age_zero) /\
   Server.post_nurses seeded_db now age_zero
     = (seeded_db, Server.json_error 400 Server.all_fields_required)).
Proof.
  simpl. repeat split; try (by vm_compute); try (by eexists).
  - right; right; reflexivity.
  - by left.
  - by intros [|[|]].
Qed.

(** C3 (amended).  In [src/backend/server.js] a create or update request in
    which name, license_number or dob is absent or empty, or age is absent,
    is answered 400 with the validation message and the store is unchanged.
    In [src/server.js] the same holds for a create request, and for an update
    request on a stored id, in which any of the four fields is absent or
    empty.  Conversely a request with the four fields present and non-empty
    and an age that parses to an integer passes the validation of
    [src/backend/server.js], and that of [src/server.js] unless its age is
    the number 0. *)
Theorem C3_field_validation d now i b :
  ((Spec.absent_or_empty (Request.name b) \/
    Spec.absent_or_empty (Request.license_number b) \/
    Spec.absent_or_empty (Request.dob b) \/
    Request.age b = JS.JUndefined) ->
   Backend.post_nurses d now b = (d, Backend.json_error 400 "All fields are required") /\
   Backend.put_nurse d now i b = (d, Backend.json_error 400 "All fields are required")) /\
  ((Spec.absent_or_empty (Request.name b) \/
    Spec.absent_or_empty (Request.license_number b) \/
    Spec.absent_or_empty (Request.dob b) \/
    Spec.age_absent_or_empty (Request.age b)) ->
   Server.post_nurses d now b = (d, Server.json_error 400 Server.all_fields_required) /\
   (is_Some (Sqlite.nurses d !! i) ->
    Server.put_nurse d now i b = (d, Server.json_error 400 Server.all_fields_required))) /\
  (Spec.present (Request.name b) ->
   Spec.present (Request.license_number b) ->
   Spec.present (Request.dob b) ->
   ~ Spec.age_absent_or_empty (Request.age b) ->
   Spec.coercible (Request.age b) ->
   Backend.missing_field b = false /\
   (Request.age b <> JS.JNum 0 -> Server.missing_field b = false)).
Proof.
  split; [|split].
  - intros H%Backend_missing_field_true.
    by rewrite Backend_post_missing, Backend_put_missing.
  - intros H.
    assert (Server.missing_field b = true) as Hm.
    { apply Server_missing_field_true.
      destruct H as [|[|[|?%not_age_absent_or_empty]]]; auto. }
    split; [by apply Server_post_missing|].
    intros Hi. by apply Server_put_missing.
  - intros Hn Hl Hd Hne Hc.
    unfold Backend.missing_field, Server.missing_field.
    rewrite !present_not_text by done. simpl. split.
    + destruct (Request.age b); try done. exfalso. apply Hne. by left.
    + intros H0. destruct (JS.not (Request.age b)) eqn:Hnot; [|done].
      destruct (not_coercible_age _ Hc Hnot) as [Hv|Hv]; [|done].
      exfalso. apply Hne. right; by right.
Qed.

Lemma C3_field_validation_witness :
  let now := "2024-06-01 10:00:00" in
  let no_name := {| Request.name := Some "";
                    Request.license_number := Some "RN-2024-006";
                    Request.dob := Some "1990-01-01";
                    Request.age := JS.JNum 34 |} in
  let full := {| Request.name := Some "Ann Lee";
                 Request.license_number := Some "RN-2024-006";
                 Request.dob := Some "1990-01-01";
                 Request.age := JS.JStr "34" |} in
  (Backend.post_nurses seeded_db now no_name
     = (seeded_db, Backend.json_error 400 "All fields are required") /\
   Backend.put_nurse seeded_db now 2 no_name
     = (seeded_db, Backend.json_error 400 "All fields are required") /\
   Server.post_nurses seeded_db now no_name
     = (seeded_db, Server.json_error 400 Server.all_fields_required) /\
   Server.put_nurse seeded_db now 2 no_name
     = (seeded_db, Server.json_error 400 Server.all_fields_required)) /\
  (Backend.missing_field full = false /\ Server.missing_field full = false).
Proof.
  intros now no_name full. split.
  - destruct (C3_field_validation seeded_db now 2 no_name) as (HB & HS & _).
    destruct (HB ltac:(left; by right)) as [HB1 HB2].
    destruct (HS ltac:(left; by right)) as [HS1 HS2].
    split; [exact HB1|]. split; [exact HB2|]. split; [exact HS1|].
    apply HS2. vm_compute. eexists. reflexivity.
  - destruct (C3_field_validation seeded_db now 2 full) as (_ & _ & HC).
    destruct (HC ltac:(by eexists) ltac:(by eexists) ltac:(by eexists)
                 ltac:(by intros [|[|]]) ltac:(by eexists)) as [HC1 HC2].
    split; [exact HC1|]. by apply HC2.
Defined.

(* ===================================================================== *)
(** * Sorting                                                             *)
(* ===================================================================== *)

Section ArraySortFacts.
Context {A : Type} (comparefn : A -> A -> Z).

Lemma sort_insert_Permutation x l : JS.sort_insert comparefn x l ≡ₚ x :: l.
Proof.
  induction l as [|y l IH]; simpl; [done|].
  destruct (comparefn x y <=? 0); [done|].
  rewrite IH. apply Permutation_swap.
Qed.

Lemma sort_Permutation l : JS.sort comparefn l ≡ₚ l.
Proof.
  induction l as [|x l IH]; simpl; [done|].
  by rewrite sort_insert_Permutation, IH.
Qed.

(** Ties keep their input order as soon as the comparator does not put a
    record behind another of the same key. *)
Section Stable.
Context {K : Type} `{EqDecision K} (key : A -> K).
Hypothesis tie : forall a b, key a = key b -> comparefn a b <= 0.

Lemma sort_insert_stable k x l :
  filter (fun a => key a = k) (JS.sort_insert comparefn x l)
  = filter (fun a => key a = k) (x :: l).
Proof.
  induction l as [|y l IH]; simpl; [done|].
  destruct (comparefn x y <=? 0) eqn:Hc; [done|].
  apply Z.leb_gt in Hc.
  rewrite (filter_cons _ y), IH, !filter_cons.
  destruct (decide (key y = k)) as [Hy|]; [|done].
  destruct (decide (key x = k)) as [Hx|]; [|done].
  specialize (tie x y). rewrite Hx, Hy in tie. specialize (tie eq_refl). lia.
Qed.

Lemma sort_stable k l :
  filter (fun a => key a = k) (JS.sort comparefn l)
  = filter (fun a => key a = k) l.
Proof.
  induction l as [|x l IH]; simpl; [done|].
  by rewrite sort_insert_stable, !filter_cons, IH.
Qed.
End Stable.

(** The result is sorted for a relation [R] that the comparator decides
    and that is transitive, on the records that satisfy [P]. *)
Section Sorted.
Context (P : A -> Prop) (R : A -> A -> Prop).
Hypothesis R_trans : forall a b c, P a -> P b -> P c -> R a b -> R b c -> R a c.
Hypothesis le_R : forall a b, P a -> P b -> comparefn a b <= 0 -> R a b.
Hypothesis gt_R : forall a b, P a -> P b -> 0 < comparefn a b -> R b a.

Lemma sort_insert_StronglySorted x l :
  P x -> Forall P l ->
  StronglySorted R l -> StronglySorted R (JS.sort_insert comparefn x l).
Proof.
  intros Hx HP Hs. induction Hs as [|y l Hs IH Hall]; simpl.
  - repeat constructor.
  - apply Forall_cons in HP as [Hy HP].
    destruct (comparefn x y <=? 0) eqn:Hc.
    + apply Z.leb_le in Hc. assert (R x y) by auto.
      constructor; [by constructor|].
      constructor; [done|].
      rewrite Forall_forall in Hall, HP |- *. intros z Hz.
      apply (R_trans x y z); auto.
    + apply Z.leb_gt in Hc. constructor; [by apply IH|].
      rewrite sort_insert_Permutation. constructor; [|done]. auto.
Qed.

Lemma sort_StronglySorted l :
  Forall P l -> StronglySorted R (JS.sort comparefn l).
Proof.
  induction l as [|x l IH]; simpl; intros HP; [constructor|].
  apply Forall_cons in HP as [Hx HP].
  apply sort_insert_StronglySorted; [done| |by apply IH].
  by rewrite sort_Permutation.
Qed.
End Sorted.
End ArraySortFacts.

(** ** The order of the compared values *)

Section Operands.

Lemma string_compare_Lt_trans s t u :
  String.compare s t = Lt -> String.compare t u = Lt -> String.compare s u = Lt.
Proof.
  revert t u. induction s as [|a s IH]; intros [|b t] [|c u]; simpl; try done.
  unfold Ascii.compare.
  destruct (N.compare_spec (N_of_ascii a) (N_of_ascii b)) as [Hab|Hab|Hab];
    destruct (N.compare_spec (N_of_ascii b) (N_of_ascii c)) as [Hbc|Hbc|Hbc];
    try done; intros H1 H2.
  - rewrite Hab, Hbc, N.compare_refl. eauto.
  - rewrite Hab. by apply N.compare_lt_iff in Hbc as ->.
  - rewrite <- Hbc. by apply N.compare_lt_iff in Hab as ->.
  - assert (N_of_ascii a < N_of_ascii c)%N as ->%N.compare_lt_iff by lia. done.
Qed.

Lemma string_leb_trans s t u :
  String.leb s t = true -> String.leb t u = true -> String.leb s u = true.
Proof.
  unfold String.leb.
  destruct (String.compare s t) eqn:Hst; [|
    |done].
  - apply String.compare_eq_iff in Hst as ->. done.
  - destruct (String.compare t u) eqn:Htu; [| |done].
    + apply String.compare_eq_iff in Htu as <-. by rewrite Hst.
    + by rewrite (string_compare_Lt_trans _ _ _ Hst Htu).
Qed.

Lemma string_ltb_leb s t : String.ltb t s = false <-> String.leb s t = true.
Proof.
  unfold String.ltb, String.leb. rewrite (String.compare_antisym s t).
  destruct (String.compare t s); simpl; split; congruence.
Qed.

Lemma string_compare_refl s : String.compare s s = Eq.
Proof.
  induction s as [|a s IH]; simpl; [done|].
  unfold Ascii.compare. by rewrite N.compare_refl.
Qed.

Lemma lt_irrefl x : JS.lt x x = false.
Proof.
  destruct x as [[a|]|s]; simpl; [apply Z.ltb_irrefl|done|].
  unfold String.ltb. by rewrite string_compare_refl.
Qed.

Lemma lt_asym x y : JS.lt x y = true -> JS.lt y x = false.
Proof.
  destruct x as [[a|]|s], y as [[b|]|t]; simpl; try done.
  - intros ?%Z.ltb_lt. apply Z.ltb_ge. lia.
  - unfold String.ltb. rewrite (String.compare_antisym s t).
    by destruct (String.compare t s).
Qed.

Lemma not_lt_operand_le x y :
  Spec.comparable x y -> JS.lt y x = false <-> Spec.operand_le x y.
Proof.
  destruct x as [[a|]|s], y as [[b|]|t]; simpl; try done; intros _.
  - rewrite Z.ltb_ge. done.
  - apply string_ltb_leb.
Qed.

Lemma operand_le_trans x y z :
  Spec.operand_le x y -> Spec.operand_le y z -> Spec.operand_le x z.
Proof.
  destruct x as [[a|]|s], y as [[b|]|t], z as [[c|]|u]; simpl; try done.
  - lia.
  - apply string_leb_trans.
Qed.

Lemma in_order_trans d x y z :
  Spec.in_order d x y -> Spec.in_order d y z -> Spec.in_order d x z.
Proof. destruct d; simpl; eauto using operand_le_trans. Qed.
End Operands.

(** ** The comparators of the two views *)

Section Comparators.

(** The three-way result both comparators compute from the converted
    values. *)
Lemma three_way_le (d : direction) (x y : JS.operand) :
  (if JS.lt x y then (if decide (d = asc) then -1 else 1)
   else if JS.gt x y then (if decide (d = asc) then 1 else -1)
   else 0) <= 0
  <-> match d with
      | asc => JS.lt y x = false
      | desc => JS.lt x y = false
      end.
Proof.
  unfold JS.gt.
  destruct (JS.lt x y) eqn:Hxy.
  - rewrite (lt_asym _ _ Hxy). destruct d; simpl; split; (done || lia).
  - destruct (JS.lt y x), d; simpl; split; (done || lia).
Qed.

Lemma App_sort_value k a : App.sort_value k a = Spec.sort_key false k a.
Proof. by destruct k. Qed.

Lemma PublicApp_sort_value c a : PublicApp.sort_value c a = Spec.sort_key true c a.
Proof. by destruct c. Qed.

Lemma App_comparefn_le k d a b :
  App.comparefn k d a b <= 0 <->
  match d with
  | asc => JS.lt (Spec.sort_key false k b) (Spec.sort_key false k a) = false
  | desc => JS.lt (Spec.sort_key false k a) (Spec.sort_key false k b) = false
  end.
Proof. unfold App.comparefn. rewrite !App_sort_value. apply three_way_le. Qed.

Lemma PublicApp_comparefn_le c d a b :
  PublicApp.comparefn c d a b <= 0 <->
  match d with
  | asc => JS.lt (Spec.sort_key true c b) (Spec.sort_key true c a) = false
  | desc => JS.lt (Spec.sort_key true c a) (Spec.sort_key true c b) = false
  end.
Proof. unfold PublicApp.comparefn. rewrite !PublicApp_sort_value. apply three_way_le. Qed.

(** A comparator of that shape sorts by the key, stably.  [P] singles out
    the records whose keys [<] orders. *)
Section Keyed.
Context {A : Type} (key : A -> JS.operand) (d : direction)
        (comparefn : A -> A -> Z) (P : A -> Prop).
Hypothesis comparefn_le : forall a b,
  comparefn a b <= 0 <->
  match d with
  | asc => JS.lt (key b) (key a) = false
  | desc => JS.lt (key a) (key b) = false
  end.
Hypothesis P_comparable : forall a b, P a -> P b -> Spec.comparable (key a) (key b).

Lemma keyed_tie a b : key a = key b -> comparefn a b <= 0.
Proof.
  intros Hk. apply comparefn_le. rewrite Hk. destruct d; apply lt_irrefl.
Qed.

Lemma keyed_le a b :
  P a -> P b -> comparefn a b <= 0 -> Spec.in_order d (key a) (key b).
Proof.
  intros Ha Hb Hc%comparefn_le. destruct d; simpl;
    apply not_lt_operand_le; auto.
Qed.

Lemma keyed_gt a b :
  P a -> P b -> 0 < comparefn a b -> Spec.in_order d (key b) (key a).
Proof.
  intros Ha Hb Hc.
  assert (~ comparefn a b <= 0) as Hn by lia.
  rewrite comparefn_le in Hn.
  destruct d; simpl; apply not_lt_operand_le; auto; apply lt_asym;
    by apply not_false_is_true.
Qed.

Lemma keyed_sort l :
  Forall P l ->
  Spec.stable_sort_of key (Spec.in_order d) l (JS.sort comparefn l).
Proof.
  intros HP. split; [apply sort_Permutation|]. split.
  - apply (sort_StronglySorted comparefn P); [|apply keyed_le|apply keyed_gt|done].
    intros a b c _ _ _. apply in_order_trans.
  - intros k. apply sort_stable, keyed_tie.
Qed.
End Keyed.

Lemma App_comparable k (a b : nurse) :
  Spec.comparable (Spec.sort_key false k a) (Spec.sort_key false k b).
Proof. by destruct k. Qed.

Lemma PublicApp_comparable c (a b : nurse) :
  (c = Dob -> Spec.valid_date a) -> (c = Dob -> Spec.valid_date b) ->
  Spec.comparable (Spec.sort_key true c a) (Spec.sort_key true c b).
Proof.
  destruct c; simpl; try done. intros [x ->] [y ->]; done.
Qed.

Lemma App_sort k d l :
  Spec.stable_sort_of (Spec.sort_key false k) (Spec.in_order d) l
    (JS.sort (App.comparefn k d) l).
Proof.
  apply (keyed_sort _ _ _ (fun _ => True)).
  - apply App_comparefn_le.
  - intros. apply App_comparable.
  - by apply Forall_true.
Qed.

Lemma PublicApp_sort c d l :
  (c = Dob -> Forall Spec.valid_date l) ->
  Spec.stable_sort_of (Spec.sort_key true c) (Spec.in_order d) l
    (PublicApp.sortNurses c d l).
Proof.
  intros Hv.
  apply (keyed_sort _ _ _ (fun n => c = Dob -> Spec.valid_date n)).
  - apply PublicApp_comparefn_le.
  - intros. by apply PublicApp_comparable.
  - apply Forall_forall. intros n Hn Hc.
    specialize (Hv Hc). rewrite Forall_forall in Hv. auto.
Qed.
End Comparators.

(** ** Day numbers and the calendar order *)

Section CivilDays.

(** The day number in closed form. *)
Lemma days_from_civil_closed y m d :
  Date.days_from_civil y m d =
  let y' := if m <=? 2 then y - 1 else y in
  365 * y' + y' / 4 - y' / 100 + y' / 400
  + (153 * (if 2 <? m then m - 3 else m + 9) + 2) / 5 + d - 1 - 719468.
Proof.
  unfold Date.days_from_civil. cbv zeta.
  generalize (if m <=? 2 then y - 1 else y). intros a.
  generalize ((153 * (if 2 <? m then m - 3 else m + 9) + 2) / 5). intros k.
  Z.div_mod_to_equations. lia.
Qed.

Lemma leap_step y :
  y / 4 - y / 100 + y / 400
  = (y - 1) / 4 - (y - 1) / 100 + (y - 1) / 400 + (if Date.is_leap y then 1 else 0).
Proof.
  unfold Date.is_leap.
  destruct (y mod 4 =? 0) eqn:H4; destruct (y mod 100 =? 0) eqn:H100;
    destruct (y mod 400 =? 0) eqn:H400; simpl;
    rewrite ?Z.eqb_eq, ?Z.eqb_neq in *;
    Z.div_mod_to_equations; lia.
Qed.

Lemma month_cases m :
  1 <= m <= 12 ->
  m = 1 \/ m = 2 \/ m = 3 \/ m = 4 \/ m = 5 \/ m = 6 \/
  m = 7 \/ m = 8 \/ m = 9 \/ m = 10 \/ m = 11 \/ m = 12.
Proof. lia. Qed.

(** A date is its January 1st plus the days before its month plus its day. *)
Lemma days_from_civil_offset y m d :
  1 <= m <= 12 ->
  Date.days_from_civil y m d
  = Date.days_from_civil y 1 1 + Date.days_before y m + d - 1.
Proof.
  intros Hm. rewrite !days_from_civil_closed. cbv zeta.
  pose proof (leap_step y) as Hl. unfold Date.days_before.
  destruct (month_cases m Hm) as [->|[->|[->|[->|[->|[->|[->|[->|[->|[->|[->| ->]]]]]]]]]]];
    cbn; destruct (Date.is_leap y); Z.div_mod_to_equations; lia.
Qed.

Lemma january_first_mono y y' :
  y <= y' -> Date.days_from_civil y 1 1 <= Date.days_from_civil y' 1 1.
Proof.
  intros H. rewrite !days_from_civil_closed. cbn. Z.div_mod_to_equations. lia.
Qed.

Lemma january_first_next y :
  Date.days_from_civil (y + 1) 1 1
  = Date.days_from_civil y 1 1 + 365 + (if Date.is_leap y then 1 else 0).
Proof.
  rewrite !days_from_civil_closed. cbn.
  pose proof (leap_step y). replace (y + 1 - 1) with y by lia. lia.
Qed.

Lemma day_of_year_bound y m d :
  1 <= m <= 12 -> 1 <= d <= Date.days_in_month y m ->
  0 <= Date.days_before y m + d - 1 <= 364 + (if Date.is_leap y then 1 else 0).
Proof.
  intros Hm. unfold Date.days_before, Date.days_in_month.
  destruct (month_cases m Hm) as [->|[->|[->|[->|[->|[->|[->|[->|[->|[->|[->| ->]]]]]]]]]]];
    cbn; destruct (Date.is_leap y); lia.
Qed.

Lemma days_before_next_month y m m' d d' :
  1 <= m -> m < m' -> m' <= 12 ->
  d <= Date.days_in_month y m -> 1 <= d' ->
  Date.days_before y m + d < Date.days_before y m' + d'.
Proof.
  intros H1 Hlt H12.
  assert (1 <= m <= 12) as Hm by lia. assert (1 <= m' <= 12) as Hm' by lia.
  unfold Date.days_before, Date.days_in_month.
  destruct (month_cases m Hm) as [->|[->|[->|[->|[->|[->|[->|[->|[->|[->|[->| ->]]]]]]]]]]];
    destruct (month_cases m' Hm') as [->|[->|[->|[->|[->|[->|[->|[->|[->|[->|[->| ->]]]]]]]]]]];
    try lia; cbn; destruct (Date.is_leap y); lia.
Qed.

(** Day numbers order the valid dates as the calendar does. *)
Lemma days_from_civil_lt y m d y' m' d' :
  1 <= m <= 12 -> 1 <= d <= Date.days_in_month y m ->
  1 <= m' <= 12 -> 1 <= d' <= Date.days_in_month y' m' ->
  Date.days_from_civil y m d < Date.days_from_civil y' m' d' <->
  y < y' \/ (y = y' /\ (m < m' \/ (m = m' /\ d < d'))).
Proof.
  intros Hm Hd Hm' Hd'.
  rewrite (days_from_civil_offset y m d), (days_from_civil_offset y' m' d') by done.
  pose proof (day_of_year_bound y m d Hm Hd).
  pose proof (day_of_year_bound y' m' d' Hm' Hd').
  destruct (Z.lt_trichotomy y y') as [Hy|[->|Hy]].
  - pose proof (january_first_next y).
    pose proof (january_first_mono (y + 1) y' ltac:(lia)). lia.
  - destruct (Z.lt_trichotomy m m') as [Hmm|[->|Hmm]].
    + pose proof (days_before_next_month y' m m' d d' ltac:(lia) Hmm ltac:(lia)
                    ltac:(lia) ltac:(lia)). lia.
    + lia.
    + pose proof (days_before_next_month y' m' m d' d ltac:(lia) Hmm ltac:(lia)
                    ltac:(lia) ltac:(lia)). lia.
  - pose proof (january_first_next y').
    pose proof (january_first_mono (y' + 1) y ltac:(lia)). lia.
Qed.

End CivilDays.

(** ** Date strings *)

Section DateStrings.

Lemma decimal_digit_Some c v :
  Date.decimal_digit c = Some v ->
  v = Z.of_N (N_of_ascii c) - 48 /\ 0 <= v <= 9.
Proof.
  unfold Date.decimal_digit. cbv zeta.
  destruct (_ && _) eqn:H; [|done]. intros [= <-].
  apply andb_true_iff in H as [?%Z.leb_le ?%Z.leb_le]. lia.
Qed.

Lemma decimal_digit_compare c c' v v' :
  Date.decimal_digit c = Some v -> Date.decimal_digit c' = Some v' ->
  Ascii.compare c c' = (v ?= v').
Proof.
  intros [-> _]%decimal_digit_Some [-> _]%decimal_digit_Some.
  unfold Ascii.compare. rewrite <- N2Z.inj_compare.
  destruct (Z.compare_spec (Z.of_N (N_of_ascii c)) (Z.of_N (N_of_ascii c')));
    symmetry; [apply Z.compare_eq_iff|apply Z.compare_lt_iff|apply Z.compare_gt_iff]; lia.
Qed.

Lemma decimal_digit_lower c v :
  Date.decimal_digit c = Some v -> JS.lower_char c = c.
Proof.
  intros [-> Hv]%decimal_digit_Some. unfold JS.lower_char. cbv zeta.
  destruct (_ && _) eqn:H; [|done].
  apply andb_true_iff in H as [?%N.leb_le ?%N.leb_le]. lia.
Qed.

Lemma decimal_two a b n :
  Date.decimal [a; b] 0 = Some n ->
  exists va vb, Date.decimal_digit a = Some va /\ Date.decimal_digit b = Some vb /\
                n = 10 * va + vb.
Proof.
  simpl. destruct (Date.decimal_digit a) as [va|]; [|done].
  destruct (Date.decimal_digit b) as [vb|]; [|done].
  intros [= <-]. exists va, vb. repeat split; lia.
Qed.

Lemma decimal_four a b c d n :
  Date.decimal [a; b; c; d] 0 = Some n ->
  exists va vb vc vd,
    Date.decimal_digit a = Some va /\ Date.decimal_digit b = Some vb /\
    Date.decimal_digit c = Some vc /\ Date.decimal_digit d = Some vd /\
    n = 1000 * va + 100 * vb + 10 * vc + vd.
Proof.
  simpl. destruct (Date.decimal_digit a) as [va|]; [|done].
  destruct (Date.decimal_digit b) as [vb|]; [|done].
  destruct (Date.decimal_digit c) as [vc|]; [|done].
  destruct (Date.decimal_digit d) as [vd|]; [|done].
  intros [= <-]. exists va, vb, vc, vd. repeat split; lia.
Qed.

End DateStrings.

Section FullDates.

(** What a string of ten characters that spells a date consists of. *)
Lemma civil_of_string_full s y m d :
  String.length s = 10%nat ->
  Date.civil_of_string s = Some (y, m, d) ->
  exists a1 a2 a3 a4 b1 b2 c1 c2 y1 y2 y3 y4 m1 m2 d1 d2,
    s = String a1 (String a2 (String a3 (String a4 (String "-"
          (String b1 (String b2 (String "-" (String c1 (String c2 "")))))))))
    /\ Date.decimal_digit a1 = Some y1 /\ Date.decimal_digit a2 = Some y2
    /\ Date.decimal_digit a3 = Some y3 /\ Date.decimal_digit a4 = Some y4
    /\ Date.decimal_digit b1 = Some m1 /\ Date.decimal_digit b2 = Some m2
    /\ Date.decimal_digit c1 = Some d1 /\ Date.decimal_digit c2 = Some d2
    /\ y = 1000 * y1 + 100 * y2 + 10 * y3 + y4
    /\ m = 10 * m1 + m2 /\ d = 10 * d1 + d2
    /\ 1 <= m <= 12 /\ 1 <= d <= Date.days_in_month y m.
Proof.
  intros Hlen H.
  do 10 (destruct s as [|? s]; [done|]). destruct s; [|done].
  unfold Date.civil_of_string in H. cbn [list_ascii_of_string] in H.
  destruct (Date.decimal [a; a0; a1; a2] 0) as [y'|] eqn:Hy; [|done].
  destruct (Date.decimal [a4; a5] 0) as [m'|] eqn:Hm; [|done].
  destruct (Date.decimal [a7; a8] 0) as [d'|] eqn:Hd; [|done].
  cbn [mbind option_bind] in H.
  destruct (_ && _) eqn:Hc in H; [|done]. injection H as -> -> ->.
  repeat (apply andb_true_iff in Hc as [Hc ?]).
  apply bool_decide_eq_true in Hc as ->.
  match goal with Hh : bool_decide (_ = "-"%char) = true |- _ =>
    apply bool_decide_eq_true in Hh as -> end.
  apply decimal_four in Hy as (y1 & y2 & y3 & y4 & ? & ? & ? & ? & ->).
  apply decimal_two in Hm as (m1 & m2 & ? & ? & ->).
  apply decimal_two in Hd as (d1 & d2 & ? & ? & ->).
  exists a, a0, a1, a2, a4, a5, a7, a8, y1, y2, y3, y4, m1, m2, d1, d2.
  repeat match goal with H : (_ <=? _) = true |- _ => apply Z.leb_le in H end.
  repeat split; try done; lia.
Qed.

End FullDates.

Section FullDateOrder.

Lemma parse_Some s x :
  Date.parse s = Some x ->
  exists y m d, Date.civil_of_string s = Some (y, m, d) /\
                x = Date.days_from_civil y m d * Date.msPerDay.
Proof.
  unfold Date.parse. destruct (Date.civil_of_string s) as [[[y m] d]|]; [|done].
  intros [= <-]. by exists y, m, d.
Qed.

(** A string that spells a full date has no letter to fold. *)
Lemma full_date_fold_case s x :
  String.length s = 10%nat -> Date.parse s = Some x -> Spec.fold_case s = s.
Proof.
  intros Hlen (y & m & d & Hs & _)%parse_Some.
  apply civil_of_string_full in Hs
    as (a1 & a2 & a3 & a4 & b1 & b2 & c1 & c2 & y1 & y2 & y3 & y4 & m1 & m2 & d1 & d2
        & -> & Ha1 & Ha2 & Ha3 & Ha4 & Hb1 & Hb2 & Hc1 & Hc2 & _); [|done].
  unfold Spec.fold_case. cbn [JS.toLowerCase].
  rewrite (decimal_digit_lower _ _ Ha1), (decimal_digit_lower _ _ Ha2),
    (decimal_digit_lower _ _ Ha3), (decimal_digit_lower _ _ Ha4),
    (decimal_digit_lower _ _ Hb1), (decimal_digit_lower _ _ Hb2),
    (decimal_digit_lower _ _ Hc1), (decimal_digit_lower _ _ Hc2).
  reflexivity.
Qed.

(** Full dates compare as strings the way their time values compare. *)
Lemma full_date_ltb s t x x' :
  String.length s = 10%nat -> String.length t = 10%nat ->
  Date.parse s = Some x -> Date.parse t = Some x' ->
  String.ltb s t = true <-> x < x'.
Proof.
  intros Hls Hlt (y & m & d & Hs & ->)%parse_Some (y' & m' & d' & Ht & ->)%parse_Some.
  apply civil_of_string_full in Hs
    as (a1 & a2 & a3 & a4 & b1 & b2 & c1 & c2 & y1 & y2 & y3 & y4 & m1 & m2 & d1 & d2
        & -> & Ha1 & Ha2 & Ha3 & Ha4 & Hb1 & Hb2 & Hc1 & Hc2 & Hy & Hm & Hd & Hmr & Hdr);
    [|done].
  apply civil_of_string_full in Ht
    as (a1' & a2' & a3' & a4' & b1' & b2' & c1' & c2'
        & y1' & y2' & y3' & y4' & m1' & m2' & d1' & d2'
        & -> & Ha1' & Ha2' & Ha3' & Ha4' & Hb1' & Hb2' & Hc1' & Hc2'
        & Hy' & Hm' & Hd' & Hmr' & Hdr');
    [|done].
  assert (Date.days_from_civil y m d * Date.msPerDay
            < Date.days_from_civil y' m' d' * Date.msPerDay
          <-> Date.days_from_civil y m d < Date.days_from_civil y' m' d') as ->
    by (unfold Date.msPerDay; lia).
  rewrite days_from_civil_lt by done.
  unfold String.ltb. cbn [String.compare].
  rewrite (decimal_digit_compare _ _ _ _ Ha1 Ha1'), (decimal_digit_compare _ _ _ _ Ha2 Ha2'),
    (decimal_digit_compare _ _ _ _ Ha3 Ha3'), (decimal_digit_compare _ _ _ _ Ha4 Ha4'),
    (decimal_digit_compare _ _ _ _ Hb1 Hb1'), (decimal_digit_compare _ _ _ _ Hb2 Hb2'),
    (decimal_digit_compare _ _ _ _ Hc1 Hc1'), (decimal_digit_compare _ _ _ _ Hc2 Hc2').
  change (Ascii.compare "-" "-") with Eq. cbv iota.
  apply decimal_digit_Some in Ha1 as [_ ?], Ha2 as [_ ?], Ha3 as [_ ?], Ha4 as [_ ?],
    Hb1 as [_ ?], Hb2 as [_ ?], Hc1 as [_ ?], Hc2 as [_ ?].
  apply decimal_digit_Some in Ha1' as [_ ?], Ha2' as [_ ?], Ha3' as [_ ?], Ha4' as [_ ?],
    Hb1' as [_ ?], Hb2' as [_ ?], Hc1' as [_ ?], Hc2' as [_ ?].
  subst y m d y' m' d'.
  destruct (Z.compare_spec y1 y1'); [|split; [lia|done]|split; [done|lia]].
  destruct (Z.compare_spec y2 y2'); [|split; [lia|done]|split; [done|lia]].
  destruct (Z.compare_spec y3 y3'); [|split; [lia|done]|split; [done|lia]].
  destruct (Z.compare_spec y4 y4'); [|split; [lia|done]|split; [done|lia]].
  destruct (Z.compare_spec m1 m1'); [|split; [lia|done]|split; [done|lia]].
  destruct (Z.compare_spec m2 m2'); [|split; [lia|done]|split; [done|lia]].
  destruct (Z.compare_spec d1 d1'); [|split; [lia|done]|split; [done|lia]].
  destruct (Z.compare_spec d2 d2'); [|split; [lia|done]|split; [done|lia]].
  split; [done|lia].
Qed.

End FullDateOrder.

(** ** One order under two keys *)

Section ChangeOfKey.

Lemma StronglySorted_impl_elem_of {A} (R R' : relation A) l :
  (forall a b, a ∈ l -> b ∈ l -> R a b -> R' a b) ->
  StronglySorted R l -> StronglySorted R' l.
Proof.
  intros HR Hs. induction Hs as [|x l Hs IH Hall]; [constructor|].
  constructor.
  - apply IH. intros a b Ha Hb. apply HR; by right.
  - rewrite Forall_forall in Hall |- *. intros b Hb.
    apply HR; [by left|by right|by apply Hall].
Qed.

Lemma filter_ext_elem_of {A} (P Q : A -> Prop)
    `{!forall x, Decision (P x)} `{!forall x, Decision (Q x)} (l : list A) :
  (forall x, x ∈ l -> P x <-> Q x) -> filter P l = filter Q l.
Proof.
  induction l as [|x l IH]; intros Hext; [done|].
  rewrite !filter_cons.
  rewrite IH by (intros y Hy; apply Hext; by right).
  destruct (decide (P x)) as [HP|HP], (decide (Q x)) as [HQ|HQ]; try done.
  - exfalso. apply HQ, Hext; [by left|done].
  - exfalso. apply HP, Hext; [by left|done].
Qed.

Lemma filter_none {A} (P : A -> Prop) `{!forall x, Decision (P x)} (l : list A) :
  (forall x, x ∈ l -> ~ P x) -> filter P l = [].
Proof.
  induction l as [|x l IH]; intros Hn; [done|].
  rewrite filter_cons_False by (apply Hn; by left).
  apply IH. intros y Hy. apply Hn. by right.
Qed.

(** A stable sort by one key is a stable sort by any key that orders and
    identifies the records of the collection in the same way. *)
Lemma stable_sort_of_change_key {A} (key1 key2 : A -> JS.operand)
    (R1 R2 : JS.operand -> JS.operand -> Prop) (l l' : list A) :
  (forall a b, a ∈ l -> b ∈ l -> R1 (key1 a) (key1 b) -> R2 (key2 a) (key2 b)) ->
  (forall a b, a ∈ l -> b ∈ l -> key1 a = key1 b <-> key2 a = key2 b) ->
  Spec.stable_sort_of key1 R1 l l' -> Spec.stable_sort_of key2 R2 l l'.
Proof.
  intros HR Hk (Hp & Hs & Hst). split; [done|]. split.
  - revert Hs. apply StronglySorted_impl_elem_of.
    intros a b Ha Hb. rewrite Hp in Ha, Hb. by apply HR.
  - intros k.
    destruct (decide (Exists (fun a => key2 a = k) l)) as [He|He].
    + apply Exists_exists in He as (a & Ha & <-).
      rewrite (filter_ext_elem_of (fun x => key2 x = key2 a) (fun x => key1 x = key1 a) l)
        by (intros x Hx; symmetry; by apply Hk).
      rewrite (filter_ext_elem_of (fun x => key2 x = key2 a) (fun x => key1 x = key1 a) l')
        by (intros x Hx; rewrite Hp in Hx; symmetry; by apply Hk).
      apply Hst.
    + rewrite !filter_none; [done| |].
      * intros x Hx Hx'. apply He, Exists_exists. eauto.
      * intros x Hx Hx'. rewrite Hp in Hx. apply He, Exists_exists. eauto.
Qed.

Lemma full_date_keys (a b : nurse) :
  Spec.full_date a -> Spec.full_date b ->
  (forall d, Spec.in_order d (Spec.sort_key false Dob a) (Spec.sort_key false Dob b) ->
             Spec.in_order d (Spec.sort_key true Dob a) (Spec.sort_key true Dob b)) /\
  (Spec.sort_key false Dob a = Spec.sort_key false Dob b <->
   Spec.sort_key true Dob a = Spec.sort_key true Dob b).
Proof.
  intros [Hla [x Hx]] [Hlb [y Hy]]. simpl.
  rewrite (full_date_fold_case _ _ Hla Hx), (full_date_fold_case _ _ Hlb Hy), Hx, Hy.
  pose proof (full_date_ltb _ _ _ _ Hla Hlb Hx Hy) as Hab.
  pose proof (full_date_ltb _ _ _ _ Hlb Hla Hy Hx) as Hba.
  split.
  - intros [|]; simpl; rewrite <- string_ltb_leb.
    + intros Hn. destruct (decide (y < x)) as [Hlt|]; [|lia].
      apply Hba in Hlt. congruence.
    + intros Hn. destruct (decide (x < y)) as [Hlt|]; [|lia].
      apply Hab in Hlt. congruence.
  - split.
    + intros [= Hs]. rewrite Hs in Hx. congruence.
    + intros [= <-]. f_equal.
      assert (String.ltb (dob a) (dob b) = false) as H1
        by (apply not_true_is_false; intros Ht; apply Hab in Ht; lia).
      assert (String.ltb (dob b) (dob a) = false) as H2
        by (apply not_true_is_false; intros Ht; apply Hba in Ht; lia).
      unfold String.ltb in H1, H2. rewrite String.compare_antisym in H2.
      destruct (String.compare (dob a) (dob b)) eqn:Hc; try done.
      by apply String.compare_eq_iff.
Qed.

(** On dobs spelled in full, [handleSort] orders as a comparison of
    calendar dates does. *)
Lemma App_sort_full_dates k d l :
  Forall Spec.full_date l ->
  Spec.stable_sort_of (Spec.sort_key true k) (Spec.in_order d) l
    (JS.sort (App.comparefn k d) l).
Proof.
  intros Hf. rewrite Forall_forall in Hf.
  destruct (decide (k = Dob)) as [->|Hk].
  - apply (stable_sort_of_change_key (Spec.sort_key false Dob) _ (Spec.in_order d));
      [| |apply App_sort].
    + intros a b Ha Hb. by apply full_date_keys; apply Hf.
    + intros a b Ha Hb. by apply full_date_keys; apply Hf.
  - assert (Spec.sort_key true k = Spec.sort_key false k) as -> by by destruct k.
    apply App_sort.
Qed.

End ChangeOfKey.




(** ** Ascending, then descending *)

Section AscThenDesc.



Lemma operand_le_antisym x y :
  Spec.operand_le x y -> Spec.operand_le y x -> x = y.
Proof.
  destruct x as [[a|]|s], y as [[b|]|t]; simpl; try done.
  - intros. do 2 f_equal. lia.
  - intros H1 H2. f_equal. by apply String.leb_antisym.
Qed.


End AscThenDesc.



(* ===================================================================== *)
(** * Filtering                                                           *)
(* ===================================================================== *)

Section Includes.







End Includes.



(* ===================================================================== *)
(** * The age derived from the dob                                        *)
(* ===================================================================== *)

Section DerivedAge.


Lemma not_true_iff_false (b : bool) (Q : Prop) : (b = true <-> Q) -> ~ Q -> b = false.
Proof. destruct b; [|done]. intros [H _] HQ. exfalso. by apply HQ, H. Qed.


End DerivedAge.




(* ===================================================================== *)
(** * The table under the requests that write                             *)
(* ===================================================================== *)

Section StoreFacts.
Implicit Types (d : Sqlite.db) (t : gmap Z Sqlite.row).

Lemma max_rowid_bounds t :
  0 <= Sqlite.max_rowid t /\ forall i r, t !! i = Some r -> i <= Sqlite.max_rowid t.
Proof.
  unfold Sqlite.max_rowid.
  apply (map_fold_weak_ind (fun m t => 0 <= m /\ forall i r, t !! i = Some r -> i <= m)).
  - split; [lia|]. intros i r. by rewrite lookup_empty.
  - intros i x m r Hi [H0 IH]. split; [lia|].
    intros j y. rewrite lookup_insert. case_decide as Hij.
    + intros _. subst. lia.
    + intros Hj. specialize (IH j y Hj). lia.
Qed.

Lemma next_rowid_fresh d :
  let rowid := Z.max (Sqlite.sqlite_sequence d) (Sqlite.max_rowid (Sqlite.nurses d)) + 1 in
  Sqlite.nurses d !! rowid = None /\
  Sqlite.sqlite_sequence d < rowid /\ 1 <= rowid /\
  forall i r, Sqlite.nurses d !! i = Some r -> i < rowid.
Proof.
  intros rowid. destruct (max_rowid_bounds (Sqlite.nurses d)) as [H0 Hm].
  assert (forall i r, Sqlite.nurses d !! i = Some r -> i < rowid) as Hlt.
  { intros i r Hi. specialize (Hm i r Hi). unfold rowid. lia. }
  split; [|split; [unfold rowid; lia|split; [unfold rowid; lia|done]]].
  destruct (Sqlite.nurses d !! rowid) as [r|] eqn:Hr; [|done].
  specialize (Hlt _ _ Hr). lia.
Qed.

Lemma license_taken_false t lic except :
  Sqlite.license_taken t lic except = false <->
  forall i r, t !! i = Some r -> Sqlite.license_number r = lic -> Some i = except.
Proof.
  rewrite <- Bool.not_true_iff_false, license_taken_true. split.
  - intros Hn i r Hi Hl. destruct (decide (Some i = except)) as [|Hne]; [done|].
    exfalso. apply Hn. by exists i, r.
  - intros H (i & r & Hi & Hl & Hne). apply Hne. by eapply H.
Qed.

(** What a successful [INSERT] does. *)
Lemma insert_inr d now n l b a d' rowid :
  Sqlite.insert d now n l b a = inr (d', rowid) ->
  exists n' l' b' a',
    n = Some n' /\ l = Some l' /\ b = Some b' /\ a = Some a' /\
    Sqlite.license_taken (Sqlite.nurses d) l' None = false /\
    rowid = Z.max (Sqlite.sqlite_sequence d) (Sqlite.max_rowid (Sqlite.nurses d)) + 1 /\
    d' = {| Sqlite.nurses :=
              <[rowid := {| Sqlite.name := n'; Sqlite.license_number := l';
                            Sqlite.dob := b'; Sqlite.age := a';
                            Sqlite.created_at := now; Sqlite.updated_at := now |}]>
                (Sqlite.nurses d);
            Sqlite.sqlite_sequence := rowid |}.
Proof.
  unfold Sqlite.insert, Sqlite.check_not_null.
  destruct n as [n'|], l as [l'|], b as [b'|], a as [a'|]; try done.
  destruct (Sqlite.license_taken _ _ _) eqn:Ht; [done|].
  intros [= <- <-]. by exists n', l', b', a'.
Qed.


(** What a successful [UPDATE] of a stored row does. *)
Lemma update_inr d now n l b a i old d' :
  Sqlite.nurses d !! i = Some old ->
  Sqlite.update d now n l b a i = inr d' ->
  exists n' l' b' a',
    n = Some n' /\ l = Some l' /\ b = Some b' /\ a = Some a' /\
    Sqlite.license_taken (Sqlite.nurses d) l' (Some i) = false /\
    d' = {| Sqlite.nurses :=
              <[i := {| Sqlite.name := n'; Sqlite.license_number := l';
                        Sqlite.dob := b'; Sqlite.age := a';
                        Sqlite.created_at := Sqlite.created_at old;
                        Sqlite.updated_at := now |}]>
                (Sqlite.nurses d);
            Sqlite.sqlite_sequence := Sqlite.sqlite_sequence d |}.
Proof.
  intros Hi. unfold Sqlite.update, Sqlite.check_not_null. rewrite Hi.
  destruct n as [n'|], l as [l'|], b as [b'|], a as [a'|]; try done.
  destruct (Sqlite.license_taken _ _ _) eqn:Ht; [done|].
  intros [= <-]. by exists n', l', b', a'.
Qed.


End StoreFacts.

Section CreateUpdateDelete.
Implicit Types (d : Sqlite.db) (b : Request.body).

Lemma parseInt_undefined : JS.parseInt JS.JUndefined = None.
Proof. reflexivity. Qed.



Lemma insert_fresh d now n l x a :
  (forall i r, Sqlite.nurses d !! i = Some r -> Sqlite.license_number r <> l) ->
  let rowid := Z.max (Sqlite.sqlite_sequence d) (Sqlite.max_rowid (Sqlite.nurses d)) + 1 in
  Sqlite.insert d now (Some n) (Some l) (Some x) (Some a)
  = inr ({| Sqlite.nurses :=
              <[rowid := {| Sqlite.name := n; Sqlite.license_number := l;
                            Sqlite.dob := x; Sqlite.age := a;
                            Sqlite.created_at := now; Sqlite.updated_at := now |}]>
                (Sqlite.nurses d);
            Sqlite.sqlite_sequence := rowid |}, rowid).
Proof.
  intros Hfree rowid. unfold Sqlite.insert. simpl.
  replace (Sqlite.license_taken (Sqlite.nurses d) l None) with false; [done|].
  symmetry. apply license_taken_false. intros i r Hi Hl. by destruct (Hfree i r Hi).
Qed.


Lemma license_free t l :
  Sqlite.license_taken t l None = false <->
  forall i r, t !! i = Some r -> Sqlite.license_number r <> l.
Proof.
  rewrite license_taken_false. split.
  - intros H i r Hi Hl. by specialize (H i r Hi Hl).
  - intros H i r Hi Hl. by destruct (H i r Hi).
Qed.


Lemma get_insert_ne t s t' s' (i j : Z) (r : Sqlite.row) :
  t' = <[i := r]> t -> j <> i ->
  Sqlite.get {| Sqlite.nurses := t'; Sqlite.sqlite_sequence := s' |} j
  = Sqlite.get {| Sqlite.nurses := t; Sqlite.sqlite_sequence := s |} j.
Proof. intros -> Hne. unfold Sqlite.get. simpl. by rewrite lookup_insert_ne. Qed.

End CreateUpdateDelete.







(** X4.  A delete request on a stored id is answered 200 by either server
    and removes that record and no other: the id reads as absent, every
    other id reads as before, the count drops by one and the sequence value
    stays.  On an id that is not stored the answer is 404 and the store is
    unchanged. *)
Theorem X4_delete_removes_one d i :
  (is_Some (Sqlite.nurses d !! i) ->
   exists d',
     Backend.delete_nurse d i = (d', Backend.json_message 200 "Nurse deleted successfully") /\
     Server.delete_nurse d i = (d', Server.json_message 200 "Nurse deleted successfully") /\
     Sqlite.get d' i = None /\
     (forall j, j <> i -> Sqlite.get d' j = Sqlite.get d j) /\
     S (Sqlite.count d') = Sqlite.count d /\
     Sqlite.sqlite_sequence d' = Sqlite.sqlite_sequence d) /\
  (Sqlite.nurses d !! i = None ->
   Backend.delete_nurse d i = (d, Backend.json_error 404 "Nurse not found") /\
   Server.delete_nurse d i = (d, Server.json_error 404 "Nurse not found")).
Proof.
  split.
  - intros [r Hi]. exists (Sqlite.delete d i).
    unfold Backend.delete_nurse, Server.delete_nurse. rewrite (get_Some _ _ _ Hi).
    repeat split.
    + apply get_delete.
    + intros j Hj. unfold Sqlite.get, Sqlite.delete. simpl. by rewrite lookup_delete_ne.
    + unfold Sqlite.count, Sqlite.delete. cbn [Sqlite.nurses].
      rewrite (map_size_delete_Some i) by by eexists.
      assert (size (Sqlite.nurses d) <> 0%nat); [|lia].
      apply map_size_non_empty_iff. intros He. by rewrite He, lookup_empty in Hi.
  - intros Hi. unfold Backend.delete_nurse, Server.delete_nurse.
    by rewrite (get_None _ _ Hi).
Qed.

Lemma X4_delete_removes_one_witness :
  (exists d',
     Server.delete_nurse seeded_db 2
     = (d', Server.json_message 200 "Nurse deleted successfully") /\
     Sqlite.get d' 2 = None /\ Sqlite.count d' = 4%nat) /\
  Server.delete_nurse seeded_db 7 = (seeded_db, Server.json_error 404 "Nurse not found").
Proof.
  destruct (X4_delete_removes_one seeded_db 2) as [Hp _].
  destruct (X4_delete_removes_one seeded_db 7) as [_ Ha].
  split.
  - destruct Hp as (d' & _ & HS & HG & _ & HC & _); [vm_compute; by eexists|].
    exists d'. split; [exact HS|]. split; [exact HG|].
    change (Sqlite.count seeded_db) with 5%nat in HC. lia.
  - apply Ha. vm_compute. reflexivity.
Defined.

Section Atomic.
Implicit Types (d : Sqlite.db) (b : Request.body).


Lemma insert_age_NaN d now n l x :
  Sqlite.insert d now (Some n) (Some l) (Some x) None = inl (Sqlite.not_null "age").
Proof. reflexivity. Qed.

Lemma update_age_NaN d now n l x i old :
  Sqlite.nurses d !! i = Some old ->
  Sqlite.update d now (Some n) (Some l) (Some x) None i = inl (Sqlite.not_null "age").
Proof. intros Hi. unfold Sqlite.update. by rewrite Hi. Qed.

End Atomic.

(** X5.  Whatever the request, either server answers with one of the
    statuses 200, 201, 400, 404 and 500; the answer carries an error message
    exactly when the status is not a 2xx one, and then the store is
    unchanged; the two read requests never change it. *)
Theorem X5_failed_requests_change_nothing d now q :
  let '(dB, rB) := Api.backend d now q in
  let '(dS, rS) := Api.server d now q in
  (status rB ∈ [200; 201; 400; 404; 500]) /\
  (status rS ∈ [200; 201; 400; 404; 500]) /\
  (Api.ok rB = false <-> is_Some (error rB)) /\
  (Api.ok rS = false <-> is_Some (error rS)) /\
  (Api.ok rB = false -> dB = d) /\
  (Api.ok rS = false -> dS = d) /\
  (match q with Api.GET_nurses | Api.GET_nurse _ => dB = d /\ dS = d | _ => True end).
Proof.
  assert (forall z : Z, z ∈ [200; 201; 400; 404; 500] <->
            z = 200 \/ z = 201 \/ z = 400 \/ z = 404 \/ z = 500) as Hin.
  { intros z. rewrite !elem_of_cons, elem_of_nil. tauto. }
  destruct q as [|i|b|i b|i]; simpl.
  - rewrite !Hin. repeat split; (lia || done || by intros []%is_Some_None).
  - unfold Backend.get_nurse, Server.get_nurse.
    destruct (Sqlite.get d i); rewrite !Hin; simpl;
      repeat split; (lia || done || by eexists || by intros []%is_Some_None).
  - unfold Backend.post_nurses, Server.post_nurses.
    destruct (Backend.missing_field b), (Server.missing_field b);
      destruct (Sqlite.insert d now (Request.name b) (Request.license_number b)
                  (Request.dob b) (JS.parseInt (Request.age b))) as [e|[d' rowid]];
      try destruct (is_unique_violation e);
      rewrite !Hin; simpl;
      repeat split; (lia || done || by eexists || by intros []%is_Some_None).
  - unfold Backend.put_nurse, Server.put_nurse.
    destruct (Backend.missing_field b), (Server.missing_field b), (Sqlite.get d i);
      try destruct (Sqlite.update d now (Request.name b) (Request.license_number b)
                      (Request.dob b) (JS.parseInt (Request.age b)) i) as [e|d'];
      try destruct (is_unique_violation e);
      rewrite !Hin; simpl;
      repeat split; (lia || done || by eexists || by intros []%is_Some_None).
  - unfold Backend.delete_nurse, Server.delete_nurse.
    destruct (Sqlite.get d i); rewrite !Hin; simpl;
      repeat split; (lia || done || by eexists || by intros []%is_Some_None).
Qed.


Section Invariant.
Implicit Types (d : Sqlite.db) (b : Request.body).

Lemma ok_insert d now n l x a d' rowid :
  Store.ok d -> n <> "" -> l <> "" -> x <> "" ->
  Sqlite.insert d now (Some n) (Some l) (Some x) a = inr (d', rowid) ->
  Store.ok d'.
Proof.
  intros (Hids & Huniq & Hfill) Hn Hl Hx Hins.
  apply insert_inr in Hins
    as (n' & l' & x' & a' & [= <-] & [= <-] & [= <-] & -> & Hfree & Hrow & ->).
  pose proof (next_rowid_fresh d) as (Hnone & Hseq & H1 & Hlt). cbv zeta in *.
  rewrite <- Hrow in *. clear Hrow.
  rewrite license_free in Hfree.
  split; [|split].
  - intros i r. simpl. rewrite lookup_insert. case_decide as Hi.
    + intros _. subst. lia.
    + intros Hr. specialize (Hids i r Hr). specialize (Hlt i r Hr). lia.
  - intros i j r r'. simpl. rewrite !lookup_insert.
    repeat case_decide; subst; try done.
    + intros [= <-] Hj Hl'. simpl in Hl'. by destruct (Hfree j r' Hj).
    + intros Hi [= <-] Hl'. simpl in Hl'. by destruct (Hfree i r Hi).
    + apply Huniq.
  - intros i r. simpl. rewrite lookup_insert. case_decide.
    + by intros [= <-].
    + apply Hfill.
Qed.









Lemma ok_empty : Store.ok empty_db.
Proof.
  split; [|split]; intros i; intros; simpl in *;
    by match goal with H : ∅ !! _ = Some _ |- _ => rewrite lookup_empty in H end.
Qed.

Lemma ok_seed d now : Store.ok d -> Store.ok (Server.seed d now).
Proof.
  intros Hok. unfold Server.seed. case_bool_decide; [|done].
  unfold Server.sampleNurses. cbn [fold_left].
  repeat match goal with
  | |- context [Sqlite.insert ?d0 now (Some ?n) (Some ?l) (Some ?x) ?a] =>
      let He := fresh "He" in
      destruct (Sqlite.insert d0 now (Some n) (Some l) (Some x) a) as [?|[? ?]] eqn:He;
      [|apply (ok_insert d0 now n l x) in He; [|done..]]
  end; done.
Qed.


End Invariant.



Section Sequence.
Implicit Types (d : Sqlite.db) (b : Request.body).

Lemma insert_sequence d now n l x a d' rowid :
  Sqlite.insert d now n l x a = inr (d', rowid) ->
  Sqlite.sqlite_sequence d < rowid /\ Sqlite.sqlite_sequence d' = rowid /\
  id <$> Sqlite.get d' rowid = Some rowid.
Proof.
  intros Hins. apply insert_inr in Hins
    as (n' & l' & x' & a' & _ & _ & _ & _ & _ & Hrow & ->).
  pose proof (next_rowid_fresh d) as (_ & Hseq & _). cbv zeta in Hseq.
  rewrite <- Hrow in Hseq. split; [done|]. split; [done|].
  unfold Sqlite.get. simpl. by rewrite lookup_insert_eq.
Qed.

Lemma update_sequence d now n l x a i d' :
  Sqlite.update d now n l x a i = inr d' ->
  Sqlite.sqlite_sequence d' = Sqlite.sqlite_sequence d.
Proof.
  unfold Sqlite.update. destruct (Sqlite.nurses d !! i); [|by intros [= <-]].
  destruct (Sqlite.check_not_null n l x a) as [|[[[??]?]?]]; [done|].
  destruct (Sqlite.license_taken _ _ _); [done|]. by intros [= <-].
Qed.

Lemma backend_advances : Store.advances Api.backend.
Proof.
  intros d now q. unfold Store.created_id_of. destruct q as [|i|b|i b|i]; simpl.
  - done.
  - unfold Backend.get_nurse. by destruct (Sqlite.get d i).
  - unfold Backend.post_nurses. destruct (Backend.missing_field b); [done|].
    destruct (Sqlite.insert d now _ _ _ _) as [e|[d' rowid]] eqn:He.
    + by destruct (is_unique_violation e).
    + apply insert_sequence in He as (Hlt & Hs & Hid). simpl. split; [lia|].
      unfold Api.record. simpl. rewrite Hid. intros j [= <-]. done.
  - unfold Backend.put_nurse. destruct (Backend.missing_field b); [done|].
    destruct (Sqlite.get d i); [|done].
    destruct (Sqlite.update d now _ _ _ _ _) as [e|d'] eqn:He.
    + by destruct (is_unique_violation e).
    + apply update_sequence in He. simpl. split; [lia|done].
  - unfold Backend.delete_nurse. by destruct (Sqlite.get d i).
Qed.

Lemma server_advances : Store.advances Api.server.
Proof.
  intros d now q. unfold Store.created_id_of. destruct q as [|i|b|i b|i]; simpl.
  - done.
  - unfold Server.get_nurse. by destruct (Sqlite.get d i).
  - unfold Server.post_nurses. destruct (Server.missing_field b); [done|].
    destruct (Sqlite.insert d now _ _ _ _) as [e|[d' rowid]] eqn:He.
    + by destruct (is_unique_violation e).
    + apply insert_sequence in He as (Hlt & Hs & Hid). simpl. split; [lia|].
      unfold Api.record. simpl. rewrite Hid. intros j [= <-]. done.
  - unfold Server.put_nurse. destruct (Sqlite.get d i); [|done].
    destruct (Server.missing_field b); [done|].
    destruct (Sqlite.update d now _ _ _ _ _) as [e|d'] eqn:He.
    + by destruct (is_unique_violation e).
    + apply update_sequence in He. simpl. split; [lia|done].
  - unfold Server.delete_nurse. by destruct (Sqlite.get d i).
Qed.

Lemma created_ids_cons r rs :
  Store.created_ids (r :: rs)
  = match Store.created_id_of r with
    | Some j => j :: Store.created_ids rs
    | None => Store.created_ids rs
    end.
Proof. reflexivity. Qed.

Lemma run_advances app d trace :
  Store.advances app ->
  Sqlite.sqlite_sequence d <= Sqlite.sqlite_sequence (Api.run app d trace).1 /\
  StronglySorted Z.lt (Store.created_ids (Api.run app d trace).2) /\
  Forall (fun j => Sqlite.sqlite_sequence d < j
                   /\ j <= Sqlite.sqlite_sequence (Api.run app d trace).1)
         (Store.created_ids (Api.run app d trace).2).
Proof.
  intros Happ. revert d. induction trace as [|[now q] trace IH]; intros d.
  { simpl. split; [lia|]. split; constructor. }
  cbn [Api.run]. destruct (Happ d now q) as [Hle Hnew].
  destruct (app d now q) as [d' r]. cbn [fst snd] in *.
  destruct (IH d') as (Hle' & Hs & Hall).
  destruct (Api.run app d' trace) as [d'' rs]. cbn [fst snd] in *.
  rewrite created_ids_cons. split; [lia|].
  destruct (Store.created_id_of r) as [j|].
  - destruct (Hnew j eq_refl) as [Hj ->]. split.
    + constructor; [done|]. eapply Forall_impl; [exact Hall|]. simpl. lia.
    + constructor; [lia|]. eapply Forall_impl; [exact Hall|]. simpl. lia.
  - split; [done|]. eapply Forall_impl; [exact Hall|]. simpl. lia.
Qed.

End Sequence.

(** X8.  Ids are never reused.  From a store whose ids lie within the
    sequence value, the ids that the create requests of any run are answered
    with, on either server, are strictly increasing in the order of the
    requests, and each is above the sequence value the run started from and
    so above every id stored at the start, and above every id created
    earlier in the run, whether or not that record was deleted since. *)
Theorem X8_ids_never_reused d trace :
  Store.ids_in_sequence d ->
  (StronglySorted Z.lt (Store.created_ids (Api.run Api.backend d trace).2) /\
   forall j, j ∈ Store.created_ids (Api.run Api.backend d trace).2 ->
     Sqlite.sqlite_sequence d < j /\
     forall i r, Sqlite.nurses d !! i = Some r -> i < j) /\
  (StronglySorted Z.lt (Store.created_ids (Api.run Api.server d trace).2) /\
   forall j, j ∈ Store.created_ids (Api.run Api.server d trace).2 ->
     Sqlite.sqlite_sequence d < j /\
     forall i r, Sqlite.nurses d !! i = Some r -> i < j).
Proof.
  intros Hids.
  destruct (run_advances Api.backend d trace backend_advances) as (_ & HsB & HaB).
  destruct (run_advances Api.server d trace server_advances) as (_ & HsS & HaS).
  rewrite Forall_forall in HaB, HaS.
  split; (split; [done|]); intros j Hj.
  - destruct (HaB j Hj) as [Hlt _]. split; [done|].
    intros i r Hi. specialize (Hids i r Hi). lia.
  - destruct (HaS j Hj) as [Hlt _]. split; [done|].
    intros i r Hi. specialize (Hids i r Hi). lia.
Qed.

Lemma X8_ids_never_reused_witness :
  let b1 := {| Request.name := Some "Ann Lee"; Request.license_number := Some "RN-1";
               Request.dob := Some "1990-01-01"; Request.age := JS.JNum 34 |} in
  let b2 := {| Request.name := Some "Bob Ray"; Request.license_number := Some "RN-2";
               Request.dob := Some "1991-02-02"; Request.age := JS.JNum 33 |} in
  let trace := [("t1", Api.POST_nurses b1); ("t2", Api.DELETE_nurse 6);
                ("t3", Api.POST_nurses b1); ("t4", Api.DELETE_nurse 5);
                ("t5", Api.POST_nurses b2)] in
  Store.created_ids (Api.run Api.server seeded_db trace).2 = [6; 7; 8] /\
  StronglySorted Z.lt (Store.created_ids (Api.run Api.server seeded_db trace).2).
Proof.
  intros b1 b2 trace. split; [by vm_compute|].
  apply (X8_ids_never_reused seeded_db trace).
  apply (ok_seed empty_db "2024-01-01 00:00:00" ok_empty).
Defined.

Section Seed.
Implicit Types (d : Sqlite.db).

Lemma insert_count d now n l x a d' rowid :
  Sqlite.insert d now n l x a = inr (d', rowid) ->
  Sqlite.count d' = S (Sqlite.count d).
Proof.
  intros Hins. apply insert_inr in Hins
    as (n' & l' & x' & a' & _ & _ & _ & _ & _ & Hrow & ->).
  pose proof (next_rowid_fresh d) as (Hnone & _). cbv zeta in Hnone.
  rewrite <- Hrow in Hnone. unfold Sqlite.count. simpl.
  by apply map_size_insert_None.
Qed.

(** The start-up inserts never shrink the table. *)
Lemma seed_fold_count now (samples : list (string * string * string * Z)) d :
  (Sqlite.count d <=
   Sqlite.count
     (fold_left
        (fun d '(n, l, b, a) =>
           match Sqlite.insert d now (Some n) (Some l) (Some b) (Some a) with
           | inr (d', _) => d'
           | inl _ => d
           end)
        samples d))%nat.
Proof.
  revert d. induction samples as [|[[[n l] b] a] samples IH]; intros d; [done|].
  cbn [fold_left]. etrans; [|apply IH].
  destruct (Sqlite.insert d now _ _ _ _) as [e|[d' rowid]] eqn:He; [done|].
  apply insert_count in He. lia.
Qed.

Lemma seed_fills_empty_table d now :
  Sqlite.count d = 0%nat -> Sqlite.count (Server.seed d now) <> 0%nat.
Proof.
  intros H0. unfold Server.seed. rewrite bool_decide_eq_true_2 by done.
  unfold Server.sampleNurses.
  assert (Sqlite.nurses d = ∅) as Hempty by by apply map_size_empty_inv.
  match goal with
  | |- Sqlite.count (fold_left ?f (?s :: ?rest) d) <> _ =>
      change (fold_left f (s :: rest) d) with (fold_left f rest (f d s));
      pose proof (seed_fold_count now rest (f d s)) as Hle;
      assert (Sqlite.count (f d s) = 1%nat) as H1
  end.
  { cbv beta iota.
    rewrite (insert_fresh d now "Sarah Johnson" "RN-2024-001" "1985-03-15" 39)
      by (intros i r; by rewrite Hempty, lookup_empty).
    unfold Sqlite.count. cbn [Sqlite.nurses]. rewrite Hempty.
    rewrite map_size_insert_None by apply lookup_empty. by rewrite map_size_empty. }
  lia.
Qed.

End Seed.

(** X9.  The start-up seed of [src/server.js] only ever fills an empty
    table: on a table with a row it changes nothing, on an empty table it
    leaves at least one row, and so seeding again (a restart) changes
    nothing: the sample rows are not duplicated. *)
Theorem X9_seed_once d now now' :
  (Sqlite.count d <> 0%nat -> Server.seed d now = d) /\
  (Sqlite.count d = 0%nat -> Sqlite.count (Server.seed d now) <> 0%nat) /\
  Server.seed (Server.seed d now) now' = Server.seed d now.
Proof.
  assert (forall d0 t, Sqlite.count d0 <> 0%nat -> Server.seed d0 t = d0) as Hno.
  { intros d0 t H0. unfold Server.seed. by rewrite bool_decide_eq_false_2. }
  split; [apply Hno|]. split; [apply seed_fills_empty_table|].
  apply Hno. destruct (decide (Sqlite.count d = 0%nat)) as [H0|H0].
  - by apply seed_fills_empty_table.
  - by rewrite Hno.
Qed.

Lemma X9_seed_once_witness :
  Sqlite.count seeded_db = 5%nat /\
  Server.seed seeded_db "2024-02-02 08:00:00" = seeded_db.
Proof.
  split; [reflexivity|].
  destruct (X9_seed_once seeded_db "2024-02-02 08:00:00" "") as (H & _).
  apply H. vm_compute. discriminate.
Defined.

(* ===================================================================== *)
(** * The list the clients hold                                           *)
(* ===================================================================== *)

Section ListingComposition.
Implicit Types (d : Sqlite.db) (l : list nurse).

Lemma strictly_descending_NoDup l :
  StronglySorted (fun a b => id b < id a) l -> NoDup (id <$> l).
Proof.
  induction 1 as [|a l Hs IH Hall]; [constructor|].
  rewrite fmap_cons. apply NoDup_cons. split; [|done].
  intros Hin. apply list_elem_of_fmap in Hin as (x & Hx & Hin).
  rewrite Forall_forall in Hall. specialize (Hall x Hin). lia.
Qed.

(** The listing is the one list in strictly descending order of id whose
    elements are the stored records. *)
Lemma all_desc_eq d l :
  StronglySorted (fun a b => id b < id a) l ->
  (forall n, n ∈ l <-> Sqlite.get d (id n) = Some n) ->
  l = Sqlite.all_desc d.
Proof.
  intros Hs Hm.
  apply (StronglySorted_unique_strong (fun a b => id b < id a));
    [intros; lia|done|apply all_desc_strictly_descending|].
  apply NoDup_Permutation.
  - eapply NoDup_fmap_1, strictly_descending_NoDup, Hs.
  - eapply NoDup_fmap_1, all_desc_NoDup_id.
  - intros n. by rewrite Hm, elem_of_all_desc.
Qed.

Lemma StronglySorted_List_filter {A} (R : relation A) (f : A -> bool) (l : list A) :
  StronglySorted R l -> StronglySorted R (List.filter f l).
Proof.
  induction 1 as [|a l Hs IH Hall]; simpl; [constructor|].
  destruct (f a); [|done]. constructor; [done|].
  rewrite Forall_forall in Hall |- *. intros x Hx. apply Hall.
  apply list_elem_of_In in Hx. apply filter_In in Hx as [Hx _].
  by apply list_elem_of_In.
Qed.

Lemma elem_of_List_filter {A} (f : A -> bool) (l : list A) x :
  x ∈ List.filter f l <-> x ∈ l /\ f x = true.
Proof. by rewrite !list_elem_of_In, filter_In. Qed.

Lemma all_desc_insert d rowid r s :
  (forall i r', Sqlite.nurses d !! i = Some r' -> i < rowid) ->
  Sqlite.all_desc {| Sqlite.nurses := <[rowid := r]> (Sqlite.nurses d);
                     Sqlite.sqlite_sequence := s |}
  = Sqlite.to_nurse (rowid, r) :: Sqlite.all_desc d.
Proof.
  intros Hlt. symmetry. apply all_desc_eq.
  - constructor; [apply all_desc_strictly_descending|].
    rewrite Forall_forall. intros x Hx. apply elem_of_all_desc in Hx.
    unfold Sqlite.get in Hx.
    destruct (Sqlite.nurses d !! id x) as [r'|] eqn:Hi; [|done].
    simpl. by eapply Hlt.
  - intros n. rewrite elem_of_cons, elem_of_all_desc.
    unfold Sqlite.get. simpl. rewrite lookup_insert. case_decide as Hn.
    + split.
      * intros [->|Hg]; [done|].
        destruct (Sqlite.nurses d !! id n) as [r'|] eqn:Hi; [|done].
        specialize (Hlt _ _ Hi). lia.
      * intros [= Heq]. left. by rewrite <- Heq, Hn.
    + split; [|by right]. intros [->|Hg]; [|done]. by destruct Hn.
Qed.

Lemma all_desc_update d i r old s :
  Sqlite.nurses d !! i = Some old ->
  Sqlite.all_desc {| Sqlite.nurses := <[i := r]> (Sqlite.nurses d);
                     Sqlite.sqlite_sequence := s |}
  = (fun n => if bool_decide (id n = i) then Sqlite.to_nurse (i, r) else n)
      <$> Sqlite.all_desc d.
Proof.
  intros Hi. symmetry. apply all_desc_eq.
  - eapply StronglySorted_fmap; cycle 1; [apply all_desc_strictly_descending|].
    intros x y Hxy. simpl in *. repeat case_bool_decide; simpl; lia.
  - intros n. rewrite list_elem_of_fmap.
    unfold Sqlite.get at 1. simpl. rewrite lookup_insert. split.
    + intros (y & -> & Hy). apply elem_of_all_desc in Hy.
      case_bool_decide as Hyi; simpl.
      * by rewrite decide_True by done.
      * by rewrite decide_False by done.
    + case_decide as Hn.
      * intros [= Heq]. exists (Sqlite.to_nurse (i, old)). split.
        -- simpl. rewrite bool_decide_eq_true_2 by done. by rewrite <- Heq, Hn.
        -- apply elem_of_all_desc. simpl. by apply get_Some.
      * intros Hg. exists n. split.
        -- by rewrite bool_decide_eq_false_2 by done.
        -- by apply elem_of_all_desc.
Qed.

Lemma all_desc_delete d i :
  Sqlite.all_desc (Sqlite.delete d i)
  = List.filter (fun n => negb (bool_decide (id n = i))) (Sqlite.all_desc d).
Proof.
  symmetry. apply all_desc_eq.
  - apply StronglySorted_List_filter, all_desc_strictly_descending.
  - intros n. rewrite elem_of_List_filter, elem_of_all_desc, negb_true_iff.
    rewrite bool_decide_eq_false.
    unfold Sqlite.get, Sqlite.delete. simpl. rewrite lookup_delete.
    case_decide as Hn.
    + split; [|done]. intros [_ Hne]. by destruct Hne.
    + split; [by intros [? _]|]. intros Hg. split; [done|]. congruence.
Qed.

(** What the listing becomes with each answer of the handlers that write. *)
Lemma Backend_post_listing d now b :
  let d' := (Backend.post_nurses d now b).1 in
  let r := (Backend.post_nurses d now b).2 in
  if Api.ok r
  then exists n, Api.record r = Some n /\
                 Sqlite.all_desc d' = n :: Sqlite.all_desc d
  else d' = d.
Proof.
  unfold Backend.post_nurses. destruct (Backend.missing_field b); [done|].
  destruct (Sqlite.insert d now (Request.name b) (Request.license_number b)
              (Request.dob b) (JS.parseInt (Request.age b)))
    as [e|[d' rowid]] eqn:He.
  - by destruct (is_unique_violation e).
  - apply insert_inr in He as (n' & l' & b' & a' & _ & _ & _ & _ & _ & Hr & ->).
    cbn -[Sqlite.all_desc Sqlite.get]. eexists. split.
    + unfold Sqlite.get. simpl. by rewrite lookup_insert_eq.
    + apply all_desc_insert. rewrite Hr. apply next_rowid_fresh.
Qed.

Lemma Server_post_listing d now b :
  let d' := (Server.post_nurses d now b).1 in
  let r := (Server.post_nurses d now b).2 in
  success r = Some (Api.ok r) /\
  if Api.ok r
  then exists n, Api.record r = Some n /\
                 Sqlite.all_desc d' = n :: Sqlite.all_desc d
  else d' = d.
Proof.
  unfold Server.post_nurses. destruct (Server.missing_field b); [done|].
  destruct (Sqlite.insert d now (Request.name b) (Request.license_number b)
              (Request.dob b) (JS.parseInt (Request.age b)))
    as [e|[d' rowid]] eqn:He.
  - by destruct (is_unique_violation e).
  - apply insert_inr in He as (n' & l' & b' & a' & _ & _ & _ & _ & _ & Hr & ->).
    cbn -[Sqlite.all_desc Sqlite.get]. split; [done|]. eexists. split.
    + unfold Sqlite.get. simpl. by rewrite lookup_insert_eq.
    + apply all_desc_insert. rewrite Hr. apply next_rowid_fresh.
Qed.

Lemma Backend_put_listing d now i b :
  let d' := (Backend.put_nurse d now i b).1 in
  let r := (Backend.put_nurse d now i b).2 in
  if Api.ok r
  then exists n, Api.record r = Some n /\ id n = i /\
                 Sqlite.all_desc d'
                 = (fun m => if bool_decide (id m = i) then n else m)
                     <$> Sqlite.all_desc d
  else d' = d.
Proof.
  unfold Backend.put_nurse. destruct (Backend.missing_field b); [done|].
  destruct (Sqlite.nurses d !! i) as [old|] eqn:Hi;
    [rewrite (get_Some _ _ _ Hi)|by rewrite (get_None _ _ Hi)].
  destruct (Sqlite.update d now (Request.name b) (Request.license_number b)
              (Request.dob b) (JS.parseInt (Request.age b)) i)
    as [e|d'] eqn:He.
  - by destruct (is_unique_violation e).
  - destruct (update_inr _ _ _ _ _ _ _ _ _ Hi He)
      as (n' & l' & b' & a' & _ & _ & _ & _ & _ & Hd).
    subst d'. cbn -[Sqlite.all_desc Sqlite.get]. eexists. split; [|split].
    + unfold Sqlite.get. simpl. by rewrite lookup_insert_eq.
    + done.
    + by eapply all_desc_update.
Qed.

Lemma Server_put_listing d now i b :
  let d' := (Server.put_nurse d now i b).1 in
  let r := (Server.put_nurse d now i b).2 in
  success r = Some (Api.ok r) /\
  if Api.ok r
  then exists n, Api.record r = Some n /\ id n = i /\
                 Sqlite.all_desc d'
                 = (fun m => if bool_decide (id m = i) then n else m)
                     <$> Sqlite.all_desc d
  else d' = d.
Proof.
  unfold Server.put_nurse.
  destruct (Sqlite.nurses d !! i) as [old|] eqn:Hi;
    [rewrite (get_Some _ _ _ Hi)|by rewrite (get_None _ _ Hi)].
  destruct (Server.missing_field b); [done|].
  destruct (Sqlite.update d now (Request.name b) (Request.license_number b)
              (Request.dob b) (JS.parseInt (Request.age b)) i)
    as [e|d'] eqn:He.
  - by destruct (is_unique_violation e).
  - destruct (update_inr _ _ _ _ _ _ _ _ _ Hi He)
      as (n' & l' & b' & a' & _ & _ & _ & _ & _ & Hd).
    subst d'. cbn -[Sqlite.all_desc Sqlite.get]. split; [done|].
    eexists. split; [|split].
    + unfold Sqlite.get. simpl. by rewrite lookup_insert_eq.
    + done.
    + by eapply all_desc_update.
Qed.

Lemma Backend_delete_listing d i :
  let d' := (Backend.delete_nurse d i).1 in
  let r := (Backend.delete_nurse d i).2 in
  if Api.ok r
  then Sqlite.all_desc d'
       = List.filter (fun n => negb (bool_decide (id n = i))) (Sqlite.all_desc d)
  else d' = d.
Proof.
  unfold Backend.delete_nurse. destruct (Sqlite.get d i); [|done].
  cbn -[Sqlite.all_desc]. apply all_desc_delete.
Qed.

Lemma Server_delete_listing d i :
  let d' := (Server.delete_nurse d i).1 in
  let r := (Server.delete_nurse d i).2 in
  success r = Some (Api.ok r) /\
  if Api.ok r
  then Sqlite.all_desc d'
       = List.filter (fun n => negb (bool_decide (id n = i))) (Sqlite.all_desc d)
  else d' = d.
Proof.
  unfold Server.delete_nurse. destruct (Sqlite.get d i); [|done].
  cbn -[Sqlite.all_desc]. split; [done|]. apply all_desc_delete.
Qed.

(** With distinct ids, replacing the first element of an id replaces all. *)
Lemma replace_first_fmap l i data :
  NoDup (id <$> l) ->
  PublicAppClient.replace_first l i data
  = (fun n => if bool_decide (id n = i) then data else n) <$> l.
Proof.
  intros Hnd. unfold PublicAppClient.replace_first.
  destruct (list_find (fun n => id n = i) l) as [[index x]|] eqn:Hf.
  - apply list_find_Some in Hf as (Hx & Hxi & _).
    apply list_eq. intros j. rewrite list_lookup_fmap.
    destruct (decide (index = j)) as [<-|Hne].
    + rewrite list_lookup_insert_eq by (by eapply lookup_lt_Some).
      rewrite Hx. simpl. by rewrite bool_decide_eq_true_2.
    + rewrite list_lookup_insert_ne by done.
      destruct (l !! j) as [y|] eqn:Hy; [|done]. simpl.
      rewrite bool_decide_eq_false_2; [done|].
      intros Hyi. apply Hne.
      apply (NoDup_lookup (id <$> l) index j i Hnd);
        rewrite list_lookup_fmap; [by rewrite Hx; simpl; f_equal
                                  |by rewrite Hy; simpl; f_equal].
  - apply list_find_None in Hf. clear Hnd.
    induction Hf as [|a l Ha Hf IH]; [done|].
    rewrite fmap_cons, bool_decide_eq_false_2 by done. by f_equal.
Qed.

Lemma List_filter_Permutation {A} (f : A -> bool) (l k : list A) :
  l ≡ₚ k -> List.filter f l ≡ₚ List.filter f k.
Proof.
  induction 1 as [|x l k _ IH|x y l|l k m _ IH1 _ IH2]; simpl.
  - done.
  - destruct (f x); [by constructor|done].
  - destruct (f x), (f y); try done. apply perm_swap.
  - by etrans.
Qed.

Lemma mirrors_NoDup_id l d : Store.mirrors l d -> NoDup (id <$> l).
Proof. intros ->. apply all_desc_NoDup_id. Qed.

End ListingComposition.

Section ClientState.
Implicit Types (d : Sqlite.db) (nurses : list nurse).

Lemma AppClient_fetchNurses d stale :
  AppClient.fetchNurses d stale = (d, Sqlite.all_desc d).
Proof. reflexivity. Qed.

Lemma PublicAppClient_fetchNurses d stale :
  PublicAppClient.fetchNurses d stale = (d, Sqlite.all_desc d).
Proof. reflexivity. Qed.

(** [setNurses] after a request, as a function of the answer: the step
    shared by the proofs about the two clients. *)
Lemma AppClient_createNurse_mirrors d now nurses f :
  let s := AppClient.createNurse d now nurses f in
  (nurses = Sqlite.all_desc d -> s.1.2 = Sqlite.all_desc s.1.1) /\
  (Store.mirrors nurses d -> Store.mirrors s.1.2 s.1.1).
Proof.
  unfold AppClient.createNurse, Store.mirrors.
  pose proof (Backend_post_listing d now (AppClient.body_of f)) as H.
  destruct (Backend.post_nurses d now (AppClient.body_of f)) as [d' r].
  simpl in H. destruct (Api.ok r).
  - destruct H as (n & Hr & Hl). rewrite Hr. simpl. rewrite Hl.
    split; [by intros ->|]. intros Hm. by constructor.
  - by subst d'.
Qed.

Lemma AppClient_updateNurse_mirrors d now nurses i f :
  let s := AppClient.updateNurse d now nurses i f in
  (nurses = Sqlite.all_desc d -> s.1.2 = Sqlite.all_desc s.1.1) /\
  (Store.mirrors nurses d -> Store.mirrors s.1.2 s.1.1).
Proof.
  unfold AppClient.updateNurse, Store.mirrors.
  pose proof (Backend_put_listing d now i (AppClient.body_of f)) as H.
  destruct (Backend.put_nurse d now i (AppClient.body_of f)) as [d' r].
  simpl in H. destruct (Api.ok r).
  - destruct H as (n & Hr & _ & Hl). rewrite Hr. simpl. rewrite Hl.
    split; [by intros ->|]. intros Hm. by apply fmap_Permutation.
  - by subst d'.
Qed.

Lemma AppClient_deleteNurse_mirrors d nurses i :
  let s := AppClient.deleteNurse d nurses i in
  (nurses = Sqlite.all_desc d -> s.1.2 = Sqlite.all_desc s.1.1) /\
  (Store.mirrors nurses d -> Store.mirrors s.1.2 s.1.1).
Proof.
  unfold AppClient.deleteNurse, Store.mirrors.
  pose proof (Backend_delete_listing d i) as H.
  destruct (Backend.delete_nurse d i) as [d' r].
  simpl in H. destruct (Api.ok r).
  - simpl. rewrite H. split; [by intros ->|].
    apply List_filter_Permutation.
  - by subst d'.
Qed.

Lemma AppClient_handleSubmit_mirrors editingNurse d now nurses f :
  let s := AppClient.handleSubmit editingNurse d now nurses f in
  (nurses = Sqlite.all_desc d -> s.1.2 = Sqlite.all_desc s.1.1) /\
  (Store.mirrors nurses d -> Store.mirrors s.1.2 s.1.1).
Proof.
  unfold AppClient.handleSubmit. destruct (AppClient.incomplete f); [done|].
  destruct editingNurse as [n|].
  - pose proof (AppClient_updateNurse_mirrors d now nurses (id n) f) as H.
    destruct (AppClient.updateNurse d now nurses (id n) f) as [[d' nurses'] o].
    by destruct o.
  - pose proof (AppClient_createNurse_mirrors d now nurses f) as H.
    destruct (AppClient.createNurse d now nurses f) as [[d' nurses'] o].
    by destruct o.
Qed.

Lemma PublicAppClient_handleFormSubmit_mirrors d now nurses editingNurseId i :
  let s := PublicAppClient.handleFormSubmit d now nurses editingNurseId i in
  (nurses = Sqlite.all_desc d -> s.1.2 = Sqlite.all_desc s.1.1) /\
  (Store.mirrors nurses d -> Store.mirrors s.1.2 s.1.1).
Proof.
  unfold PublicAppClient.handleFormSubmit, Store.mirrors.
  destruct (PublicAppClient.incomplete _); [done|].
  set (b := PublicAppClient.body_of _).
  destruct (PublicAppClient.editing editingNurseId) as [nurse_id|].
  - destruct (Server_put_listing d now nurse_id b) as [Hs H].
    destruct (Server.put_nurse d now nurse_id b) as [d' r].
    simpl in Hs, H. rewrite Hs. destruct (Api.ok r).
    + destruct H as (n & Hr & _ & H). simpl. rewrite Hr. simpl. rewrite H. split.
      * intros ->. apply replace_first_fmap, all_desc_NoDup_id.
      * intros Hm. rewrite replace_first_fmap by by eapply mirrors_NoDup_id.

        by apply fmap_Permutation.
    + by subst d'.
  - destruct (Server_post_listing d now b) as [Hs H].
    destruct (Server.post_nurses d now b) as [d' r].
    simpl in Hs, H. rewrite Hs. destruct (Api.ok r).
    + destruct H as (n & Hr & Hl). simpl. rewrite Hr. simpl. rewrite Hl.
      split; [by intros ->|]. intros Hm. by constructor.
    + by subst d'.
Qed.

Lemma PublicAppClient_deleteNurse_mirrors d nurses i :
  let s := PublicAppClient.deleteNurse d nurses i in
  (nurses = Sqlite.all_desc d -> s.1.2 = Sqlite.all_desc s.1.1) /\
  (Store.mirrors nurses d -> Store.mirrors s.1.2 s.1.1).
Proof.
  unfold PublicAppClient.deleteNurse, Store.mirrors.
  destruct (Server_delete_listing d i) as [Hs H].
  destruct (Server.delete_nurse d i) as [d' r].
  simpl in Hs, H. rewrite Hs. destruct (Api.ok r).
  - simpl. rewrite H. split; [by intros ->|].
    apply List_filter_Permutation.
  - by subst d'.
Qed.

End ClientState.

(** X10.  A client that holds the list a fetch returned and then saves the
    form or deletes a record ends with exactly the list a new fetch would
    return, whatever the server answered: the new record first, the updated
    record in the place of the old one, the deleted record gone.  This holds
    for [src/frontend/src/App.jsx] against [src/backend/server.js] and for
    [src/unnamed/part_000] against [src/server.js]. *)
Theorem X10_local_update_equals_refetch d now stale stale' editingNurse f i
    editingNurseId inputs :
  let nurses := (AppClient.fetchNurses d stale).2 in
  let nurses0 := (PublicAppClient.fetchNurses d stale).2 in
  let saved := AppClient.handleSubmit editingNurse d now nurses f in
  let deleted := AppClient.deleteNurse d nurses i in
  let saved0 := PublicAppClient.handleFormSubmit d now nurses0 editingNurseId inputs in
  let deleted0 := PublicAppClient.deleteNurse d nurses0 i in
  AppClient.fetchNurses saved.1.1 stale' = saved.1 /\
  AppClient.fetchNurses deleted.1.1 stale' = deleted.1 /\
  PublicAppClient.fetchNurses saved0.1.1 stale' = saved0.1 /\
  PublicAppClient.fetchNurses deleted0.1.1 stale' = deleted0.1.
Proof.
  cbv zeta. rewrite ?AppClient_fetchNurses, ?PublicAppClient_fetchNurses. cbn [snd].
  destruct (AppClient_handleSubmit_mirrors editingNurse d now (Sqlite.all_desc d) f)
    as [H1 _].
  destruct (AppClient_deleteNurse_mirrors d (Sqlite.all_desc d) i) as [H2 _].
  destruct (PublicAppClient_handleFormSubmit_mirrors d now (Sqlite.all_desc d)
              editingNurseId inputs) as [H3 _].
  destruct (PublicAppClient_deleteNurse_mirrors d (Sqlite.all_desc d) i) as [H4 _].
  cbv zeta in H1, H2, H3, H4.
  rewrite <- H1, <- H2, <- H3, <- H4 by done.
  repeat split; symmetry; by apply surjective_pairing.
Qed.

(** X11.  A client list that holds the stored records, in any order, still
    does after the form is saved, after a record is deleted and after a
    header is clicked, whatever the server answered: no record is lost,
    duplicated or left stale.  This holds for [src/frontend/src/App.jsx]
    against [src/backend/server.js] and for [src/unnamed/part_000] against
    [src/server.js]. *)
Theorem X11_client_list_mirrors_table d now nurses editingNurse f i
    editingNurseId inputs cfg k column direction :
  Store.mirrors nurses d ->
  let saved := AppClient.handleSubmit editingNurse d now nurses f in
  let deleted := AppClient.deleteNurse d nurses i in
  let saved0 := PublicAppClient.handleFormSubmit d now nurses editingNurseId inputs in
  let deleted0 := PublicAppClient.deleteNurse d nurses i in
  let clicked0 :=
    PublicApp.header_click
      {| PublicApp.nurses := nurses; PublicApp.currentSortColumn := column;
         PublicApp.sortDirection := direction |} k in
  Store.mirrors saved.1.2 saved.1.1 /\
  Store.mirrors deleted.1.2 deleted.1.1 /\
  Store.mirrors (App.handleSort cfg nurses k).2 d /\
  Store.mirrors saved0.1.2 saved0.1.1 /\
  Store.mirrors deleted0.1.2 deleted0.1.1 /\
  Store.mirrors (PublicApp.nurses clicked0) d.
Proof.
  intros Hm. cbv zeta.
  split; [by apply AppClient_handleSubmit_mirrors|].
  split; [by apply AppClient_deleteNurse_mirrors|].
  split; [unfold Store.mirrors; simpl; by rewrite sort_Permutation|].
  split; [by apply PublicAppClient_handleFormSubmit_mirrors|].
  split; [by apply PublicAppClient_deleteNurse_mirrors|].
  unfold Store.mirrors, PublicApp.header_click, PublicApp.sortNurses. simpl.
  by rewrite sort_Permutation.
Qed.

Lemma X11_client_list_mirrors_table_witness :
  let nurses := rev (Sqlite.all_desc seeded_db) in
  let f := {| App.f_name := "Ann Lee"; App.f_license_number := "RN-2024-006";
              App.f_dob := "1991-02-03"; App.f_age := "33" |} in
  let saved := AppClient.handleSubmit None seeded_db "2024-06-01 10:00:00" nurses f in
  Store.mirrors nurses seeded_db /\ Store.mirrors saved.1.2 saved.1.1.
Proof.
  intros nurses f saved.
  assert (Store.mirrors nurses seeded_db) as Hm.
  { unfold Store.mirrors, nurses. symmetry. apply Permutation_rev. }
  split; [exact Hm|].
  apply (X11_client_list_mirrors_table seeded_db "2024-06-01 10:00:00" nurses None f 1
           None {| PublicAppClient.nurseName := ""; PublicAppClient.licenseNumber := "";
                   PublicAppClient.nurseDob := ""; PublicAppClient.nurseAge := "" |}
           {| App.key := None; App.sort_direction := asc |} Name None asc Hm).
Defined.

(* ===================================================================== *)
(** * Sorting again, and searching                                        *)
(* ===================================================================== *)

Section StableSortUnique.
Context {A : Type} (key : A -> JS.operand) (R : JS.operand -> JS.operand -> Prop).
Hypothesis R_antisym : forall x y, R x y -> R y x -> x = y.

(** Two sorted lists of the same elements with the same order among the
    elements of each key are the same list. *)
Lemma sorted_stable_unique (l1 l2 : list A) :
  l1 ≡ₚ l2 ->
  StronglySorted (fun a b => R (key a) (key b)) l1 ->
  StronglySorted (fun a b => R (key a) (key b)) l2 ->
  (forall k, filter (fun a => key a = k) l1 = filter (fun a => key a = k) l2) ->
  l1 = l2.
Proof.
  revert l2. induction l1 as [|x l1 IH]; intros l2 Hp Hs1 Hs2 Hf.
  - by apply Permutation_nil_l in Hp.
  - destruct l2 as [|y l2]; [by apply Permutation_nil_r in Hp|].
    apply StronglySorted_inv in Hs1 as [Hs1 Hx].
    apply StronglySorted_inv in Hs2 as [Hs2 Hy].
    assert (key x = key y) as Hk.
    { assert (x ∈ y :: l2) as Hin by (rewrite <- Hp; left).
      assert (y ∈ x :: l1) as Hin' by (rewrite Hp; left).
      apply elem_of_cons in Hin as [->|Hin]; [done|].
      apply elem_of_cons in Hin' as [->|Hin']; [done|].
      rewrite Forall_forall in Hx, Hy. apply R_antisym; auto. }
    assert (x = y) as ->.
    { specialize (Hf (key x)). rewrite !filter_cons in Hf.
      rewrite decide_True in Hf by done. rewrite decide_True in Hf by done.
      by injection Hf. }
    f_equal. apply IH; [by eapply (Permutation.Permutation_cons_inv (a:=y))|done|done|].
    intros k. specialize (Hf k). rewrite !filter_cons in Hf.
    destruct (decide (key y = k)); [by injection Hf|done].
Qed.

Lemma stable_sort_unique (input l1 l2 : list A) :
  Spec.stable_sort_of key R input l1 -> Spec.stable_sort_of key R input l2 ->
  l1 = l2.
Proof.
  intros (Hp1 & Hs1 & Hf1) (Hp2 & Hs2 & Hf2).
  apply sorted_stable_unique; [by rewrite Hp1, Hp2|done|done|].
  intros k. by rewrite Hf1, Hf2.
Qed.

End StableSortUnique.

Section SortLaws.

Lemma in_order_antisym d x y :
  Spec.in_order d x y -> Spec.in_order d y x -> x = y.
Proof. destruct d; simpl; eauto using operand_le_antisym, eq_sym. Qed.

Lemma filter_List_filter {A} (P : A -> Prop) `{!forall x, Decision (P x)}
    (f : A -> bool) (l : list A) :
  filter P (List.filter f l) = List.filter f (filter P l).
Proof.
  induction l as [|x l IH]; [done|]. simpl. rewrite filter_cons.
  destruct (f x) eqn:Hx, (decide (P x)); simpl;
    rewrite ?filter_cons, ?Hx, ?decide_True, ?decide_False by done;
    by rewrite IH.
Qed.

Lemma stable_sort_of_List_filter {A} (key : A -> JS.operand) R (f : A -> bool) l l' :
  Spec.stable_sort_of key R l l' ->
  Spec.stable_sort_of key R (List.filter f l) (List.filter f l').
Proof.
  intros (Hp & Hs & Hf). split; [by apply List_filter_Permutation|]. split.
  - by apply StronglySorted_List_filter.
  - intros k. by rewrite !filter_List_filter, Hf.
Qed.

Lemma App_sort_unique k d l l' :
  Spec.stable_sort_of (Spec.sort_key false k) (Spec.in_order d) l l' ->
  l' = JS.sort (App.comparefn k d) l.
Proof.
  intros H. eapply stable_sort_unique; [apply in_order_antisym|done|apply App_sort].
Qed.

Lemma PublicApp_sort_unique c d l l' :
  (c = Dob -> Forall Spec.valid_date l) ->
  Spec.stable_sort_of (Spec.sort_key true c) (Spec.in_order d) l l' ->
  l' = PublicApp.sortNurses c d l.
Proof.
  intros Hv H.
  eapply stable_sort_unique; [apply in_order_antisym|done|by apply PublicApp_sort].
Qed.





End SortLaws.



(** X13.  The two clients sort alike.  Started from the same column and
    direction, a header click in [src/unnamed/part_000] and [handleSort] in
    [src/frontend/src/App.jsx] settle on the same column and direction and
    produce the same list; on the dob column when every dob is spelled
    [YYYY-MM-DD]. *)
Theorem X13_clients_sort_alike (cfg : App.sortConfig) (l : list nurse) (c : column) :
  (c = Dob -> Forall Spec.full_date l) ->
  let s := PublicApp.header_click
             {| PublicApp.nurses := l;
                PublicApp.currentSortColumn := App.key cfg;
                PublicApp.sortDirection := App.sort_direction cfg |} c in
  let s' := App.handleSort cfg l c in
  PublicApp.currentSortColumn s = App.key s'.1 /\
  PublicApp.sortDirection s = App.sort_direction s'.1 /\
  PublicApp.nurses s = s'.2.
Proof.
  intros Hf. unfold PublicApp.header_click, App.handleSort. simpl.
  assert ((if bool_decide (App.key cfg = Some c)
           then if decide (App.sort_direction cfg = asc) then desc else asc
           else asc)
          = (if bool_decide (App.key cfg = Some c) &&
                bool_decide (App.sort_direction cfg = asc)
             then desc else asc)) as ->.
  { case_bool_decide; [|done]. simpl. destruct (App.sort_direction cfg); done. }
  split; [done|]. split; [done|].
  generalize (if bool_decide (App.key cfg = Some c) && bool_decide (App.sort_direction cfg = asc) then desc else asc). intros d. unfold PublicApp.sortNurses at 1. symmetry.
  destruct (decide (c = Dob)) as [Hc|Hc].
  - apply PublicApp_sort_unique.
    + intros _. specialize (Hf Hc). eapply Forall_impl; [exact Hf|].
      by intros n [_ ?].
    + apply App_sort_full_dates. by apply Hf.
  - apply PublicApp_sort_unique; [done|].
    assert (Spec.sort_key true c = Spec.sort_key false c) as -> by by destruct c.
    apply App_sort.
Qed.

Lemma X13_clients_sort_alike_witness :
  let l := Sqlite.all_desc seeded_db in
  let cfg := {| App.key := Some Dob; App.sort_direction := asc |} in
  (Dob = Dob -> Forall Spec.full_date l) /\
  PublicApp.nurses
    (PublicApp.header_click
       {| PublicApp.nurses := l; PublicApp.currentSortColumn := Some Dob;
          PublicApp.sortDirection := asc |} Dob)
  = (App.handleSort cfg l Dob).2.
Proof.
  intros l cfg.
  assert (Dob = Dob -> Forall Spec.full_date l) as Hf.
  { intros _. apply (bool_decide_unpack _). vm_compute. exact I. }
  split; [exact Hf|].
  apply (X13_clients_sort_alike cfg l Dob Hf).
Defined.



(** X15.  Searching and sorting commute in [src/frontend/src/App.jsx]: the rows
    that match a query, taken from the sorted collection, are the sort of
    the rows that match it in the collection before the sort. *)
Theorem X15_filter_commutes_with_sort cfg (l : list nurse) k q :
  App.filteredNurses (App.handleSort cfg l k).2 q
  = (App.handleSort cfg (App.filteredNurses l q) k).2.
Proof.
  unfold App.handleSort, App.filteredNurses. cbn [snd].
  apply App_sort_unique, stable_sort_of_List_filter, App_sort.
Qed.

Section Narrowing.

Lemma append_String x (a b : string) : String x a +:+ b = String x (a +:+ b).
Proof. reflexivity. Qed.








End Narrowing.


(* ===================================================================== *)
(** * The forms                                                           *)
(* ===================================================================== *)

Section FormOutcomes.
Implicit Types (d : Sqlite.db).

Lemma PublicAppClient_complete f :
  PublicAppClient.incomplete f = false ->
  PublicAppClient.fd_name f <> "" /\ PublicAppClient.fd_license_number f <> "" /\
  PublicAppClient.fd_dob f <> "" /\
  exists a, PublicAppClient.fd_age f = Some a /\ a <> 0.
Proof.
  unfold PublicAppClient.incomplete. rewrite !orb_false_iff.
  intros [[[Hn Hl] Hx] Ha].
  apply bool_decide_eq_false in Hn, Hl, Hx.
  destruct (PublicAppClient.fd_age f) as [a|]; [|done].
  apply Z.eqb_neq in Ha. eauto 10.
Qed.

Lemma AppClient_complete f :
  AppClient.incomplete f = false ->
  App.f_name f <> "" /\ App.f_license_number f <> "" /\
  App.f_dob f <> "" /\ App.f_age f <> "".
Proof.
  unfold AppClient.incomplete. rewrite !orb_false_iff.
  intros [[[Hn Hl] Hx] Ha]. by apply bool_decide_eq_false in Hn, Hl, Hx, Ha.
Qed.

Lemma Server_missing_field_complete f :
  PublicAppClient.incomplete f = false ->
  Server.missing_field (PublicAppClient.body_of f) = false.
Proof.
  intros (Hn & Hl & Hx & a & Ha & Ha')%PublicAppClient_complete.
  unfold Server.missing_field, PublicAppClient.body_of. simpl. rewrite Ha. simpl.
  rewrite !bool_decide_eq_false_2 by done. simpl. by apply Z.eqb_neq.
Qed.

Lemma Backend_missing_field_complete f :
  AppClient.incomplete f = false ->
  Backend.missing_field (AppClient.body_of f) = false.
Proof.
  intros (Hn & Hl & Hx & Ha)%AppClient_complete.
  unfold Backend.missing_field, AppClient.body_of. simpl.
  by rewrite !bool_decide_eq_false_2 by done.
Qed.

Lemma insert_bound d now n l x a :
  Sqlite.insert d now (Some n) (Some l) (Some x) (Some a)
  = if Sqlite.license_taken (Sqlite.nurses d) l None then inl Sqlite.unique_failed
    else
      let rowid := Z.max (Sqlite.sqlite_sequence d)
                         (Sqlite.max_rowid (Sqlite.nurses d)) + 1 in
      inr ({| Sqlite.nurses :=
                <[rowid := {| Sqlite.name := n; Sqlite.license_number := l;
                              Sqlite.dob := x; Sqlite.age := a;
                              Sqlite.created_at := now; Sqlite.updated_at := now |}]>
                  (Sqlite.nurses d);
              Sqlite.sqlite_sequence := rowid |}, rowid).
Proof. reflexivity. Qed.

Lemma update_bound d now n l x a i old :
  Sqlite.nurses d !! i = Some old ->
  Sqlite.update d now (Some n) (Some l) (Some x) (Some a) i
  = if Sqlite.license_taken (Sqlite.nurses d) l (Some i) then inl Sqlite.unique_failed
    else inr {| Sqlite.nurses :=
                  <[i := {| Sqlite.name := n; Sqlite.license_number := l;
                            Sqlite.dob := x; Sqlite.age := a;
                            Sqlite.created_at := Sqlite.created_at old;
                            Sqlite.updated_at := now |}]>
                    (Sqlite.nurses d);
                Sqlite.sqlite_sequence := Sqlite.sqlite_sequence d |}.
Proof. intros Hi. unfold Sqlite.update. by rewrite Hi. Qed.

Lemma Server_put_complete d now i f old :
  PublicAppClient.incomplete f = false ->
  Sqlite.nurses d !! i = Some old ->
  exists a, PublicAppClient.fd_age f = Some a /\ a <> 0 /\
  Server.put_nurse d now i (PublicAppClient.body_of f)
  = if Sqlite.license_taken (Sqlite.nurses d)
         (PublicAppClient.fd_license_number f) (Some i)
    then (d, Server.json_error 400 "License number already exists")
    else
      let r := {| Sqlite.name := PublicAppClient.fd_name f;
                  Sqlite.license_number := PublicAppClient.fd_license_number f;
                  Sqlite.dob := PublicAppClient.fd_dob f; Sqlite.age := a;
                  Sqlite.created_at := Sqlite.created_at old;
                  Sqlite.updated_at := now |} in
      ({| Sqlite.nurses := <[i := r]> (Sqlite.nurses d);
          Sqlite.sqlite_sequence := Sqlite.sqlite_sequence d |},
       Server.json_data 200 (Some "Nurse updated successfully")
         (Row (Some (Sqlite.to_nurse (i, r))))).
Proof.
  intros Hc Hi. pose proof (Server_missing_field_complete f Hc) as Hm.
  apply PublicAppClient_complete in Hc as (Hn & Hl & Hx & a & Ha & Ha').
  exists a. split; [done|]. split; [done|].
  unfold Server.put_nurse. rewrite (get_Some _ _ _ Hi), Hm.
  unfold PublicAppClient.body_of.
  cbn [Request.name Request.license_number Request.dob Request.age].
  rewrite Ha. cbn [JS.parseInt]. rewrite (update_bound _ _ _ _ _ _ _ _ Hi).
  destruct (Sqlite.license_taken _ _ _); [done|].
  cbv zeta. unfold Sqlite.get. cbn [Sqlite.nurses]. by rewrite lookup_insert_eq.
Qed.

Lemma Server_post_complete d now f :
  PublicAppClient.incomplete f = false ->
  exists a, PublicAppClient.fd_age f = Some a /\ a <> 0 /\
  Server.post_nurses d now (PublicAppClient.body_of f)
  = if Sqlite.license_taken (Sqlite.nurses d)
         (PublicAppClient.fd_license_number f) None
    then (d, Server.json_error 400 "License number already exists")
    else
      let rowid := Z.max (Sqlite.sqlite_sequence d)
                         (Sqlite.max_rowid (Sqlite.nurses d)) + 1 in
      let r := {| Sqlite.name := PublicAppClient.fd_name f;
                  Sqlite.license_number := PublicAppClient.fd_license_number f;
                  Sqlite.dob := PublicAppClient.fd_dob f; Sqlite.age := a;
                  Sqlite.created_at := now; Sqlite.updated_at := now |} in
      ({| Sqlite.nurses := <[rowid := r]> (Sqlite.nurses d);
          Sqlite.sqlite_sequence := rowid |},
       Server.json_data 201 (Some "Nurse created successfully")
         (Row (Some (Sqlite.to_nurse (rowid, r))))).
Proof.
  intros Hc. pose proof (Server_missing_field_complete f Hc) as Hm.
  apply PublicAppClient_complete in Hc as (Hn & Hl & Hx & a & Ha & Ha').
  exists a. split; [done|]. split; [done|].
  unfold Server.post_nurses. rewrite Hm.
  unfold PublicAppClient.body_of.
  cbn [Request.name Request.license_number Request.dob Request.age].
  rewrite Ha. cbn [JS.parseInt]. rewrite insert_bound.
  destruct (Sqlite.license_taken _ _ _); [done|].
  cbv zeta. unfold Sqlite.get. cbn [Sqlite.nurses]. by rewrite lookup_insert_eq.
Qed.

Lemma Backend_put_complete d now i f old :
  AppClient.incomplete f = false ->
  Sqlite.nurses d !! i = Some old ->
  Backend.put_nurse d now i (AppClient.body_of f)
  = match JS.parseInt_string (App.f_age f) with
    | None => (d, Backend.json_error 500 "Failed to update nurse")
    | Some a =>
        if Sqlite.license_taken (Sqlite.nurses d) (App.f_license_number f) (Some i)
        then (d, Backend.json_error 400 "License number already exists")
        else
          let r := {| Sqlite.name := App.f_name f;
                      Sqlite.license_number := App.f_license_number f;
                      Sqlite.dob := App.f_dob f; Sqlite.age := a;
                      Sqlite.created_at := Sqlite.created_at old;
                      Sqlite.updated_at := now |} in
          ({| Sqlite.nurses := <[i := r]> (Sqlite.nurses d);
              Sqlite.sqlite_sequence := Sqlite.sqlite_sequence d |},
           Backend.json_data 200 (Row (Some (Sqlite.to_nurse (i, r)))))
    end.
Proof.
  intros Hc Hi. pose proof (Backend_missing_field_complete f Hc) as Hm.
  unfold Backend.put_nurse. rewrite Hm, (get_Some _ _ _ Hi).
  unfold AppClient.body_of.
  cbn [Request.name Request.license_number Request.dob Request.age JS.parseInt].
  destruct (JS.parseInt_string (App.f_age f)) as [a|].
  - rewrite (update_bound _ _ _ _ _ _ _ _ Hi).
    destruct (Sqlite.license_taken _ _ _); [done|].
    cbv zeta. unfold Sqlite.get. cbn [Sqlite.nurses]. by rewrite lookup_insert_eq.
  - by rewrite (update_age_NaN _ _ _ _ _ _ _ Hi).
Qed.

Lemma Backend_post_complete d now f :
  AppClient.incomplete f = false ->
  Backend.post_nurses d now (AppClient.body_of f)
  = match JS.parseInt_string (App.f_age f) with
    | None => (d, Backend.json_error 500 "Failed to create nurse")
    | Some a =>
        if Sqlite.license_taken (Sqlite.nurses d) (App.f_license_number f) None
        then (d, Backend.json_error 400 "License number already exists")
        else
          let rowid := Z.max (Sqlite.sqlite_sequence d)
                             (Sqlite.max_rowid (Sqlite.nurses d)) + 1 in
          let r := {| Sqlite.name := App.f_name f;
                      Sqlite.license_number := App.f_license_number f;
                      Sqlite.dob := App.f_dob f; Sqlite.age := a;
                      Sqlite.created_at := now; Sqlite.updated_at := now |} in
          ({| Sqlite.nurses := <[rowid := r]> (Sqlite.nurses d);
              Sqlite.sqlite_sequence := rowid |},
           Backend.json_data 201 (Row (Some (Sqlite.to_nurse (rowid, r)))))
    end.
Proof.
  intros Hc. pose proof (Backend_missing_field_complete f Hc) as Hm.
  unfold Backend.post_nurses. rewrite Hm.
  unfold AppClient.body_of.
  cbn [Request.name Request.license_number Request.dob Request.age JS.parseInt].
  destruct (JS.parseInt_string (App.f_age f)) as [a|].
  - rewrite insert_bound.
    destruct (Sqlite.license_taken _ _ _); [done|].
    cbv zeta. unfold Sqlite.get. cbn [Sqlite.nurses]. by rewrite lookup_insert_eq.
  - by rewrite insert_age_NaN.
Qed.

End FormOutcomes.


(** X18.  What the modal of [src/frontend/src/App.jsx] shows, for every
    state and form: [All fields are required] without a request when a field
    is the empty string; otherwise, for a new record, [Failed to create
    nurse] when the age string holds no number, [License number already
    exists] when a record holds the license number, and no error otherwise;
    for an edit, [Nurse not found] when the id is not stored, [Failed to
    update nurse] when the age string holds no number, [License number
    already exists] when another record holds the license number, and no
    error otherwise.  Every error leaves the table and the list as they
    were. *)
Theorem X18_modal_form_outcomes editingNurse d now nurses f :
  let s := AppClient.handleSubmit editingNurse d now nurses f in
  s.2 =
    (if AppClient.incomplete f then Some "All fields are required"
     else
       match editingNurse with
       | None =>
           match JS.parseInt_string (App.f_age f) with
           | None => Some "Failed to create nurse"
           | Some _ =>
               if Sqlite.license_taken (Sqlite.nurses d) (App.f_license_number f) None
               then Some "License number already exists"
               else None
           end
       | Some n =>
           match Sqlite.nurses d !! id n with
           | None => Some "Nurse not found"
           | Some _ =>
               match JS.parseInt_string (App.f_age f) with
               | None => Some "Failed to update nurse"
               | Some _ =>
                   if Sqlite.license_taken (Sqlite.nurses d)
                        (App.f_license_number f) (Some (id n))
                   then Some "License number already exists"
                   else None
               end
           end
       end) /\
  (s.2 = None \/ s.1 = (d, nurses)).
Proof.
  cbv zeta. unfold AppClient.handleSubmit.
  destruct (AppClient.incomplete f) eqn:Hc; [by auto|].
  destruct editingNurse as [n|].
  - unfold AppClient.updateNurse.
    destruct (Sqlite.nurses d !! id n) as [old|] eqn:Hi.
    + rewrite (Backend_put_complete d now (id n) f old Hc Hi).
      destruct (JS.parseInt_string (App.f_age f)) as [a|]; [|cbn; by auto].
      destruct (Sqlite.license_taken _ _ _); cbn; auto.
    + unfold Backend.put_nurse.
      rewrite (Backend_missing_field_complete f Hc), (get_None _ _ Hi).
      cbn. auto.
  - unfold AppClient.createNurse. rewrite (Backend_post_complete d now f Hc).
    destruct (JS.parseInt_string (App.f_age f)) as [a|]; [|cbn; by auto].
    destruct (Sqlite.license_taken _ _ _); cbn; auto.
Qed.

Section DecimalRoundTrip.

Lemma digit_value_pretty_N_char k :
  (k < 10)%N -> JS.digit_value (pretty_N_char k) = Some (Z.of_N k).
Proof.
  intros Hk.
  assert (k = 0 \/ k = 1 \/ k = 2 \/ k = 3 \/ k = 4 \/ k = 5 \/ k = 6 \/
          k = 7 \/ k = 8 \/ k = 9)%N as H by lia.
  by destruct H as [->|[->|[->|[->|[->|[->|[->|[->|[->| ->]]]]]]]]].
Qed.

(** Reading the digits that [pretty_N_go] writes gives the number back. *)
Lemma parse_digits_pretty_N_go x s :
  (0 < x)%N ->
  JS.parse_digits 10 (pretty_N_go x s) None
  = JS.parse_digits 10 s (Some (Z.of_N x)).
Proof.
  revert s. induction (N.lt_wf_0 x) as [x _ IH]; intros s Hx.
  rewrite pretty_N_go_step by done.
  assert (x `mod` 10 < 10)%N as Hm by (apply N.mod_lt; lia).
  pose proof (N.div_mod x 10 ltac:(lia)) as Hdm.
  destruct (decide (x `div` 10 = 0)%N) as [H0|H0].
  - rewrite H0, pretty_N_go_0. cbn [JS.parse_digits].
    rewrite (digit_value_pretty_N_char _ Hm).
    replace (Z.of_N (x `mod` 10) <? 10) with true by (symmetry; apply Z.ltb_lt; lia).
    f_equal. simpl. f_equal. lia.
  - rewrite IH by (try apply N.div_lt; lia). cbn [JS.parse_digits].
    rewrite (digit_value_pretty_N_char _ Hm).
    replace (Z.of_N (x `mod` 10) <? 10) with true by (symmetry; apply Z.ltb_lt; lia).
    f_equal. simpl. f_equal. lia.
Qed.

(** The first digit written for a positive number is not 0. *)
Lemma pretty_N_go_head x s :
  (0 < x)%N ->
  exists k rest, (1 <= k <= 9)%N /\ pretty_N_go x s = String (pretty_N_char k) rest.
Proof.
  revert s. induction (N.lt_wf_0 x) as [x _ IH]; intros s Hx.
  rewrite pretty_N_go_step by done.
  assert (x `mod` 10 < 10)%N as Hm by (apply N.mod_lt; lia).
  pose proof (N.div_mod x 10 ltac:(lia)) as Hdm.
  destruct (decide (x `div` 10 = 0)%N) as [H0|H0].
  - rewrite H0, pretty_N_go_0. exists (x `mod` 10)%N, s. split; [lia|done].
  - apply IH; [apply N.div_lt|]; lia.
Qed.

Lemma parseInt_string_digits k rest :
  (1 <= k <= 9)%N ->
  JS.parseInt_string (String (pretty_N_char k) rest)
  = Z.mul 1 <$> JS.parse_digits 10 (String (pretty_N_char k) rest) None /\
  JS.parseInt_string (String "-" (String (pretty_N_char k) rest))
  = Z.mul (-1) <$> JS.parse_digits 10 (String (pretty_N_char k) rest) None.
Proof.
  intros Hk.
  assert (k = 1 \/ k = 2 \/ k = 3 \/ k = 4 \/ k = 5 \/ k = 6 \/
          k = 7 \/ k = 8 \/ k = 9)%N as H by lia.
  by destruct H as [->|[->|[->|[->|[->|[->|[->|[->| ->]]]]]]]].
Qed.

Lemma parseInt_string_toString n : JS.parseInt_string (JS.toString n) = Some n.
Proof.
  unfold JS.toString, pretty, pretty_Z.
  destruct n as [|p|p]; [done| |];
    unfold pretty, pretty_positive, pretty, pretty_N;
    (case_decide; [done|]);
    destruct (pretty_N_go_head (N.pos p) "") as (k & rest & Hk & Hh); try lia;
    pose proof (parse_digits_pretty_N_go (N.pos p) "" ltac:(lia)) as Hp;
    rewrite Hh in Hp |- *.
  - destruct (parseInt_string_digits k rest Hk) as [-> _]. by rewrite Hp.
  - change ("-" +:+ String (pretty_N_char k) rest)
      with (String "-" (String (pretty_N_char k) rest)).
    destruct (parseInt_string_digits k rest Hk) as [_ ->]. by rewrite Hp.
Qed.

End DecimalRoundTrip.

Section DerivedAgeStored.

Lemma toString_not_empty n : JS.toString n <> "".
Proof.
  intros He. pose proof (parseInt_string_toString n) as Hp.
  by rewrite He in Hp.
Qed.

End DerivedAgeStored.

(** X19.  In [src/frontend/src/App.jsx], the age that [handleChange] derives
    from a dob is the age [src/backend/server.js] stores: with a name and a
    license number filled in and a license number no record holds, saving
    the form right after the dob was entered shows no error and prepends a
    record whose age is the derived one, negative for a dob in the future,
    and whose other fields are those of the form.  When the dob is not a
    date the derived age is [NaN], the save is answered [Failed to create
    nurse] and nothing changes. *)
Theorem X19_derived_age_is_stored d now nurses today birthDate value prev :
  value <> "" -> App.f_name prev <> "" -> App.f_license_number prev <> "" ->
  Sqlite.license_taken (Sqlite.nurses d) (App.f_license_number prev) None = false ->
  let f := App.handleChange today birthDate Dob value prev in
  let s := AppClient.handleSubmit None d now nurses f in
  match birthDate with
  | Some birthDate =>
      s.2 = None /\
      exists n, s.1.2 = n :: nurses /\
                Sqlite.get s.1.1 (id n) = Some n /\
                age n = App.calculated_age today birthDate /\
                dob n = value /\ name n = App.f_name prev /\
                license_number n = App.f_license_number prev
  | None => s.2 = Some "Failed to create nurse" /\ s.1 = (d, nurses)
  end.
Proof.
  intros Hv Hn Hl Hfree f s.
  assert (AppClient.incomplete f = false) as Hc.
  { unfold f, App.handleChange. rewrite bool_decide_eq_true_2 by done.
    rewrite (bool_decide_eq_false_2 (value = "")) by done. cbn [negb andb].
    unfold AppClient.incomplete.
    destruct birthDate as [b|]; cbn;
      rewrite !bool_decide_eq_false_2; auto using toString_not_empty. }
  unfold s, AppClient.handleSubmit, AppClient.createNurse.
  rewrite Hc, (Backend_post_complete d now f Hc).
  unfold f, App.handleChange. rewrite bool_decide_eq_true_2 by done.
  rewrite (bool_decide_eq_false_2 (value = "")) by done. cbn [negb andb].
  destruct birthDate as [b|]; cbn [App.set_field App.f_age App.f_name
    App.f_license_number App.f_dob].
  - rewrite parseInt_string_toString, Hfree. cbn -[Sqlite.get].
    split; [done|]. eexists. split; [done|]. split; [|done].
    unfold Sqlite.get. cbn. by rewrite lookup_insert_eq.
  - by cbn.
Qed.

Lemma X19_derived_age_is_stored_witness :
  let today := {| Date.getFullYear := 2024; Date.getMonth := 5; Date.getDate := 1 |} in
  let birthDate := {| Date.getFullYear := 1991; Date.getMonth := 6; Date.getDate := 3 |} in
  let prev := {| App.f_name := "Ann Lee"; App.f_license_number := "RN-2024-006";
                 App.f_dob := ""; App.f_age := "" |} in
  let f := App.handleChange today (Some birthDate) Dob "1991-07-03" prev in
  let s := AppClient.handleSubmit None seeded_db "2024-06-01 10:00:00" [] f in
  exists n, s.1.2 = [n] /\ age n = 32.
Proof.
  intros today birthDate prev f s.
  destruct (X19_derived_age_is_stored seeded_db "2024-06-01 10:00:00" [] today
              (Some birthDate) "1991-07-03" prev)
    as (_ & n & Hs & _ & Ha & _); [done|done|done|by vm_compute|].
  exists n. split; [exact Hs|exact Ha].
Defined.

(** X20.  In [src/unnamed/part_000], right after the dob was entered, and
    with a name and a license number that are not blank and a license
    number no record holds, submitting the form for a new record adds a
    record whose age is the derived one when that age is positive.  When
    the derived age is 0 or negative, or the dob is not a date, the age
    input was emptied: the form answers [Please fill in all fields] and no
    request is made. *)
Theorem X20_vanilla_derived_age d now nurses today birth inputs :
  PublicAppClient.trim (PublicAppClient.nurseName inputs) <> "" ->
  PublicAppClient.trim (PublicAppClient.licenseNumber inputs) <> "" ->
  PublicAppClient.nurseDob inputs <> "" ->
  Sqlite.license_taken (Sqlite.nurses d)
    (PublicAppClient.trim (PublicAppClient.licenseNumber inputs)) None = false ->
  PublicAppClient.nurseAge inputs = PublicApp.nurseDob_change today birth ->
  let s := PublicAppClient.handleFormSubmit d now nurses None inputs in
  let derived := PublicApp.calculated_age today <$> birth in
  match derived with
  | Some a =>
      if 0 <? a
      then s.2 = "Nurse added successfully" /\
           exists n, s.1.2 = n :: nurses /\
                     Sqlite.get s.1.1 (id n) = Some n /\
                     age n = a /\
                     dob n = PublicAppClient.nurseDob inputs /\
                     name n = PublicAppClient.trim (PublicAppClient.nurseName inputs) /\
                     license_number n
                     = PublicAppClient.trim (PublicAppClient.licenseNumber inputs)
      else s = (d, nurses, "Please fill in all fields")
  | None => s = (d, nurses, "Please fill in all fields")
  end.
Proof.
  intros Hn Hl Hx Hfree Hage s derived.
  assert (PublicAppClient.nurseAge inputs = "" ->
          s = (d, nurses, "Please fill in all fields")) as Hrej.
  { intros He. unfold s, PublicAppClient.handleFormSubmit.
    replace (PublicAppClient.incomplete (PublicAppClient.read_form inputs))
      with true; [done|].
    symmetry. unfold PublicAppClient.incomplete, PublicAppClient.read_form.
    cbn. rewrite He. cbn. by rewrite !orb_true_r. }
  unfold derived. destruct birth as [b|]; cbn [fmap option_fmap option_map];
    [|by apply Hrej].
  unfold PublicApp.nurseDob_change in Hage. cbv zeta in Hage.
  destruct (0 <? PublicApp.calculated_age today b) eqn:Hpos; [|by apply Hrej].
  set (a := PublicApp.calculated_age today b) in *.
  assert (PublicAppClient.fd_age (PublicAppClient.read_form inputs) = Some a) as Ha.
  { unfold PublicAppClient.read_form. cbn. rewrite Hage.
    apply parseInt_string_toString. }
  assert (PublicAppClient.incomplete (PublicAppClient.read_form inputs) = false)
    as Hc.
  { unfold PublicAppClient.incomplete. rewrite Ha.
    cbn. rewrite !bool_decide_eq_false_2 by done. cbn.
    apply Z.eqb_neq. apply Z.ltb_lt in Hpos. lia. }
  unfold s, PublicAppClient.handleFormSubmit. rewrite Hc. cbn [PublicAppClient.editing].
  destruct (Server_post_complete d now _ Hc) as (a' & Ha' & _ & ->).
  rewrite Ha in Ha'. injection Ha' as <-.
  cbn [PublicAppClient.read_form PublicAppClient.fd_license_number
       PublicAppClient.fd_name PublicAppClient.fd_dob].
  rewrite Hfree. cbv zeta. cbn [success Server.json_data].
  rewrite bool_decide_eq_true_2 by done. cbn -[Sqlite.get].
  split; [done|]. eexists. split; [done|]. split; [|done].
  unfold Sqlite.get. cbn. by rewrite lookup_insert_eq.
Qed.

Lemma X20_vanilla_derived_age_witness :
  let today := {| Date.getFullYear := 2024; Date.getMonth := 5; Date.getDate := 1 |} in
  let birth := {| Date.getFullYear := 1991; Date.getMonth := 6; Date.getDate := 3 |} in
  let inputs := {| PublicAppClient.nurseName := " Ann Lee ";
                   PublicAppClient.licenseNumber := "RN-2024-006";
                   PublicAppClient.nurseDob := "1991-07-03";
                   PublicAppClient.nurseAge := "32" |} in
  let s := PublicAppClient.handleFormSubmit seeded_db "2024-06-01 10:00:00" []
             None inputs in
  exists n, s.1.2 = [n] /\ age n = 32 /\ name n = "Ann Lee".
Proof.
  intros today birth inputs s.
  pose proof (X20_vanilla_derived_age seeded_db "2024-06-01 10:00:00" [] today
                (Some birth) inputs) as H.
  destruct H as (_ & n & Hs & _ & Ha & _ & Hn & _);
    [by vm_compute|by vm_compute|done|by vm_compute|by vm_compute|].
  exists n. split; [exact Hs|]. split; [exact Ha|exact Hn].
Defined.

Section Trim.

Lemma trim_start_head s :
  JS.trim_start s = "" \/
  exists c t, JS.trim_start s = String c t /\ JS.is_white_space c = false.
Proof.
  induction s as [|c s IH]; [by left|]. cbn [JS.trim_start].
  destruct (JS.is_white_space c) eqn:Hc; [done|]. right. by exists c, s.
Qed.

Lemma trim_end_head c t :
  JS.is_white_space c = false ->
  PublicAppClient.trim_end (String c t) = String c (PublicAppClient.trim_end t).
Proof. intros Hc. cbn [PublicAppClient.trim_end]. by rewrite Hc. Qed.

Lemma trim_end_idemp s :
  PublicAppClient.trim_end (PublicAppClient.trim_end s) = PublicAppClient.trim_end s.
Proof.
  induction s as [|c s IH]; [done|]. cbn [PublicAppClient.trim_end].
  destruct (JS.is_white_space c && bool_decide (PublicAppClient.trim_end s = ""))
    eqn:Hc; [done|].
  cbn [PublicAppClient.trim_end]. by rewrite IH, Hc.
Qed.

(** Trimming what is trimmed changes nothing. *)
Lemma trim_idemp s : PublicAppClient.trim (PublicAppClient.trim s) = PublicAppClient.trim s.
Proof.
  unfold PublicAppClient.trim.
  destruct (trim_start_head s) as [->|(c & t & -> & Hc)]; [done|].
  rewrite (trim_end_head c t Hc). cbn [JS.trim_start]. rewrite Hc.
  rewrite (trim_end_head c _ Hc). by rewrite trim_end_idemp.
Qed.

End Trim.

(** X21.  A record that the form of [src/unnamed/part_000] saves, new or
    edited, holds the name and the license number of the form without the
    white space around them, so that trimming them again changes nothing;
    its name, license number and dob are not empty and its age is not 0. *)
Theorem X21_vanilla_form_saves_trimmed d now nurses editingNurseId inputs :
  let s := PublicAppClient.handleFormSubmit d now nurses editingNurseId inputs in
  s.2 = "Nurse added successfully" \/ s.2 = "Nurse updated successfully" ->
  exists n,
    Sqlite.get s.1.1 (id n) = Some n /\
    name n = PublicAppClient.trim (PublicAppClient.nurseName inputs) /\
    license_number n = PublicAppClient.trim (PublicAppClient.licenseNumber inputs) /\
    PublicAppClient.trim (name n) = name n /\
    PublicAppClient.trim (license_number n) = license_number n /\
    name n <> "" /\ license_number n <> "" /\ dob n <> "" /\ age n <> 0.
Proof.
  cbv zeta. unfold PublicAppClient.handleFormSubmit.
  set (f := PublicAppClient.read_form inputs).
  destruct (PublicAppClient.incomplete f) eqn:Hc; [by intros [|]|].
  pose proof (PublicAppClient_complete f Hc) as (Hn & Hl & Hx & _).
  destruct (PublicAppClient.editing editingNurseId) as [i|].
  - destruct (Sqlite.nurses d !! i) as [old|] eqn:Hi.
    + destruct (Server_put_complete d now i f old Hc Hi) as (a & Ha & Ha' & ->).
      destruct (Sqlite.license_taken _ _ _); [by intros [|]|].
      cbv zeta. cbn [success Server.json_data].
      rewrite bool_decide_eq_true_2 by done. cbn -[Sqlite.get]. intros _.
      exists (Sqlite.to_nurse
                (i, {| Sqlite.name := PublicAppClient.fd_name f;
                       Sqlite.license_number := PublicAppClient.fd_license_number f;
                       Sqlite.dob := PublicAppClient.fd_dob f; Sqlite.age := a;
                       Sqlite.created_at := Sqlite.created_at old;
                       Sqlite.updated_at := now |})).
      split; [unfold Sqlite.get; cbn; by rewrite lookup_insert_eq|].
      subst f. cbn -[PublicAppClient.trim] in Hn, Hl, Hx |- *.
    by rewrite !trim_idemp.
    + unfold Server.put_nurse. rewrite (get_None _ _ Hi). by intros [|].
  - destruct (Server_post_complete d now f Hc) as (a & Ha & Ha' & ->).
    destruct (Sqlite.license_taken _ _ _); [by intros [|]|].
    cbv zeta. cbn [success Server.json_data].
    rewrite bool_decide_eq_true_2 by done. cbn -[Sqlite.get]. intros _.
    exists (Sqlite.to_nurse
              (Z.max (Sqlite.sqlite_sequence d) (Sqlite.max_rowid (Sqlite.nurses d)) + 1,
               {| Sqlite.name := PublicAppClient.fd_name f;
                  Sqlite.license_number := PublicAppClient.fd_license_number f;
                  Sqlite.dob := PublicAppClient.fd_dob f; Sqlite.age := a;
                  Sqlite.created_at := now; Sqlite.updated_at := now |})).
    split; [unfold Sqlite.get; cbn; by rewrite lookup_insert_eq|].
    subst f. cbn -[PublicAppClient.trim] in Hn, Hl, Hx |- *.
    by rewrite !trim_idemp.
Qed.

Lemma X21_vanilla_form_saves_trimmed_witness :
  let inputs := {| PublicAppClient.nurseName := " Ann Lee ";
                   PublicAppClient.licenseNumber := "RN-2024-006 ";
                   PublicAppClient.nurseDob := "1991-07-03";
                   PublicAppClient.nurseAge := "32" |} in
  let s := PublicAppClient.handleFormSubmit seeded_db "2024-06-01 10:00:00" []
             None inputs in
  exists n, Sqlite.get s.1.1 (id n) = Some n /\ name n = "Ann Lee" /\
            license_number n = "RN-2024-006".
Proof.
  intros inputs s.
  destruct (X21_vanilla_form_saves_trimmed seeded_db "2024-06-01 10:00:00" []
              None inputs) as (n & Hg & Hn & Hl & _).
  - left. by vm_compute.
  - exists n. split; [exact Hg|]. split; [exact Hn|exact Hl].
Defined.

(* ===================================================================== *)
(** * The CSV export                                                      *)
(* ===================================================================== *)

Section CsvFacts.

Lemma includes_char a s c :
  JS.includes (String a s) (String c "")
  = bool_decide (a = c) || JS.includes s (String c "").
Proof.
  cbn [JS.includes String.prefix].
  destruct (ascii_dec c a) as [->|Hne].
  - rewrite bool_decide_eq_true_2 by done. by destruct s.
  - rewrite bool_decide_eq_false_2 by done. done.
Qed.

Lemma split_plain c s :
  JS.includes s (String c "") = false -> Csv.split c s = [s].
Proof.
  induction s as [|a s IH]; [done|].
  rewrite includes_char. intros [Ha Hs]%orb_false_iff.
  cbn [Csv.split]. rewrite Ha, IH by done. done.
Qed.

Lemma split_append c s rest :
  JS.includes s (String c "") = false ->
  Csv.split c (s +:+ String c rest) = s :: Csv.split c rest.
Proof.
  induction s as [|a s IH].
  - intros _. change ("" +:+ String c rest) with (String c rest).
    cbn [Csv.split]. by rewrite bool_decide_eq_true_2.
  - rewrite includes_char. intros [Ha Hs]%orb_false_iff.
    rewrite append_String. cbn [Csv.split]. rewrite Ha, IH by done. done.
Qed.

(** Splitting what [join] wrote gives the values back when none of them
    holds the separator. *)
Lemma split_join c (values : list string) :
  values <> [] ->
  Forall (fun v => JS.includes v (String c "") = false) values ->
  Csv.split c (AppClient.join (String c "") values) = values.
Proof.
  intros Hne Hall. induction Hall as [|v values Hv Hall IH]; [done|].
  destruct values as [|v' values]; [by apply split_plain|].
  change (AppClient.join (String c "") (v :: v' :: values))
    with (v +:+ String c "" +:+ AppClient.join (String c "") (v' :: values)).
  change (String c "" +:+ AppClient.join (String c "") (v' :: values))
    with (String c (AppClient.join (String c "") (v' :: values))).
  rewrite split_append by done. f_equal. by apply IH.
Qed.

Lemma includes_append_char s t c :
  JS.includes (s +:+ t) (String c "")
  = JS.includes s (String c "") || JS.includes t (String c "").
Proof.
  induction s as [|a s IH].
  - change ("" +:+ t) with t. cbn [JS.includes String.prefix]. done.
  - rewrite append_String, !includes_char, IH. by rewrite orb_assoc.
Qed.

Lemma includes_join_char sep c (values : list string) :
  JS.includes sep (String c "") = false ->
  Forall (fun v => JS.includes v (String c "") = false) values ->
  JS.includes (AppClient.join sep values) (String c "") = false.
Proof.
  intros Hsep Hall. induction Hall as [|v values Hv Hall IH]; [done|].
  destruct values as [|v' values]; [done|].
  change (AppClient.join sep (v :: v' :: values))
    with (v +:+ sep +:+ AppClient.join sep (v' :: values)).
  by rewrite !includes_append_char, Hv, Hsep, IH.
Qed.

Lemma pretty_N_char_not c k :
  (forall j, (j < 10)%N -> pretty_N_char j <> c) ->
  bool_decide (pretty_N_char k = c) = false.
Proof.
  intros Hc. apply bool_decide_eq_false.
  assert (pretty_N_char k = pretty_N_char (N.min k 9)) as ->.
  { unfold pretty_N_char. destruct (decide (k < 9)%N).
    - by rewrite N.min_l by lia.
    - rewrite N.min_r by lia.
      assert (k = 9 \/ 10 <= k)%N as [->|?] by lia; [done|].
      by repeat (case_match; try lia). }
  apply Hc. lia.
Qed.

Lemma includes_pretty_N_go c x s :
  (forall j, (j < 10)%N -> pretty_N_char j <> c) ->
  JS.includes (pretty_N_go x s) (String c "") = JS.includes s (String c "").
Proof.
  intros Hc. revert s. induction (N.lt_wf_0 x) as [x _ IH]; intros s.
  destruct (decide (x = 0)%N) as [->|Hx]; [by rewrite pretty_N_go_0|].
  rewrite pretty_N_go_step by lia. rewrite IH by (apply N.div_lt; lia).
  by rewrite includes_char, pretty_N_char_not.
Qed.

Lemma includes_toString c n :
  c <> "-"%char -> (forall j, (j < 10)%N -> pretty_N_char j <> c) ->
  JS.includes (JS.toString n) (String c "") = false.
Proof.
  intros Hm Hc. unfold JS.toString, pretty, pretty_Z.
  destruct n as [|p|p].
  - change "0" with (String (pretty_N_char 0) "").
    by rewrite includes_char, (pretty_N_char_not c 0 Hc).
  - unfold pretty, pretty_positive, pretty, pretty_N.
    case_decide; [done|]. by rewrite includes_pretty_N_go.
  - unfold pretty, pretty_positive, pretty, pretty_N.
    case_decide; [done|].
    change ("-" +:+ pretty_N_go (N.pos p) "")
      with (String "-" (pretty_N_go (N.pos p) "")).
    rewrite includes_char, includes_pretty_N_go by done.
    by rewrite bool_decide_eq_false_2.
Qed.

Lemma digit_not_comma j : (j < 10)%N -> pretty_N_char j <> ","%char.
Proof. intros _. unfold pretty_N_char. by repeat case_match. Qed.

Lemma digit_not_line_feed j : (j < 10)%N -> pretty_N_char j <> "010"%char.
Proof. intros _. unfold pretty_N_char. by repeat case_match. Qed.

Lemma toString_plain n : Csv.plain (JS.toString n).
Proof.
  split; apply includes_toString; auto using digit_not_comma, digit_not_line_feed.
Qed.

End CsvFacts.

(** X22.  The CSV file of [src/frontend/src/App.jsx] reads back: when no
    name, license number or dob of the exported records holds a comma or a
    line feed, splitting the text at the line feeds and every line at the
    commas gives the header line followed by the four cells of every
    record in order. *)
Theorem X22_csv_reads_back (filteredNurses : list nurse) :
  Forall (fun n => Csv.plain (name n) /\ Csv.plain (license_number n) /\
                   Csv.plain (dob n)) filteredNurses ->
  Csv.split "," <$> Csv.split "010" (AppClient.downloadAsCSV filteredNurses)
  = AppClient.headers :: (Csv.cells <$> filteredNurses).
Proof.
  intros Hp. unfold AppClient.downloadAsCSV.
  rewrite split_join; [|done|].
  - rewrite fmap_cons. f_equal.
    induction Hp as [|n l (H1 & H2 & H3) Hp IH]; [done|].
    rewrite !fmap_cons, IH. f_equal.
    unfold AppClient.csv_row. apply split_join; [done|].
    repeat constructor; try apply toString_plain; by (apply H1 || apply H2 || apply H3).
  - constructor; [done|].
    induction Hp as [|n l (H1 & H2 & H3) Hp IH]; [constructor|].
    rewrite fmap_cons. constructor; [|exact IH].
    unfold AppClient.csv_row. apply includes_join_char; [done|].
    repeat constructor; try apply toString_plain; by (apply H1 || apply H2 || apply H3).
Qed.

Lemma X22_csv_reads_back_witness :
  let l := Sqlite.all_desc seeded_db in
  Forall (fun n => Csv.plain (name n) /\ Csv.plain (license_number n) /\
                   Csv.plain (dob n)) l /\
  Csv.split "," <$> Csv.split "010" (AppClient.downloadAsCSV l)
  = AppClient.headers :: (Csv.cells <$> l).
Proof.
  intros l.
  assert (Forall (fun n => Csv.plain (name n) /\ Csv.plain (license_number n) /\
                           Csv.plain (dob n)) l) as Hp.
  { apply (bool_decide_unpack _). vm_compute. exact I. }
  split; [exact Hp|]. apply (X22_csv_reads_back l Hp).
Defined.
